(** * listen.py: wake-word listener, transcription scheduling and conversation capture

    A shallow embedding of [listen.py]: the ordering of transcription tasks,
    the worker's transcription function, the wake-word pre-filter, the
    bounded context buffer and the body of the main loop (one pass of the
    [while running] loop is one call of [tick]).

    Conventions of the embedding.
    - Python [str] is [string]; a character is a code point below 256.
    - Python [int] is [Z]; wall-clock readings ([time.time()]) are only
      compared and subtracted, and are read as [Z].
    - Audio samples are exact rationals ([Q]); the [float32] rounding of
      numpy is not represented.
    - A call that may raise returns an [outcome]; the main loop body runs in
      a small state-and-exception monad over the loop's local variables and a
      log of the calls made to the collaborators and to the file system.
    - The answers of [TranscriptionService.get_result], which depend on the
      worker threads, are inputs of a tick ([in_poll1], [in_poll2]).
    - Console output and the deletion of temporary files are left out. *)

From Stdlib Require Import ZArith QArith Qabs List String Ascii Bool Lia.
Import ListNotations.
Open Scope string_scope.
Open Scope Z_scope.
Open Scope list_scope.

(** ** Python values *)

(** The result of a call that may raise. *)
Inductive outcome (A : Type) : Type :=
| Returned (a : A)
| Raised.
Arguments Returned {A} a.
Arguments Raised {A}.

(** Truth value of an optional string: [None] and the empty string are falsy. *)
Definition truthy (o : option string) : bool :=
  match o with
  | Some (String _ _) => true
  | _ => false
  end.

Definition code (c : ascii) : N := N_of_ascii c.

(** [str.isspace] on code points below 256. *)
Definition isspace (c : ascii) : bool :=
  let n := code c in
  (((9 <=? n) && (n <=? 13)) || ((28 <=? n) && (n <=? 32))
   || (n =? 133) || (n =? 160))%N.

Fixpoint lstrip (s : string) : string :=
  match s with
  | EmptyString => EmptyString
  | String c r => if isspace c then lstrip r else s
  end.

Fixpoint rstrip (s : string) : string :=
  match s with
  | EmptyString => EmptyString
  | String c r =>
      match rstrip r with
      | EmptyString => if isspace c then EmptyString else String c EmptyString
      | r' => String c r'
      end
  end.

(** [str.strip()] with no argument. *)
Definition strip (s : string) : string := rstrip (lstrip s).

(** [str.lower] on code points below 256: A-Z and the Latin-1 capitals. *)
Definition lower_char (c : ascii) : ascii :=
  let n := code c in
  if (((65 <=? n) && (n <=? 90))
      || ((192 <=? n) && (n <=? 222) && negb (n =? 215)))%N
  then ascii_of_N (n + 32) else c.

Fixpoint lower (s : string) : string :=
  match s with
  | EmptyString => EmptyString
  | String c r => String (lower_char c) (lower r)
  end.

(** [needle in hay] on strings. *)
Fixpoint str_in (needle hay : string) : bool :=
  prefix needle hay ||
  match hay with
  | EmptyString => false
  | String _ r => str_in needle r
  end.

(** [all s] holds when every character of [s] is white space. *)
Fixpoint all_space (s : string) : bool :=
  match s with
  | EmptyString => true
  | String c r => isspace c && all_space r
  end.

Definition first_char (s : string) : option ascii :=
  match s with
  | EmptyString => None
  | String c _ => Some c
  end.

Fixpoint last_char (s : string) : option ascii :=
  match s with
  | EmptyString => None
  | String c EmptyString => Some c
  | String _ r => last_char r
  end.

Definition not_space (o : option ascii) : bool :=
  match o with
  | None => true
  | Some c => negb (isspace c)
  end.

(** ** Priorities and transcription tasks *)

Module Priority.
Definition HIGH : Z := 1.
Definition LOW : Z := 2.
End Priority.

Record TranscriptionTask : Type := {
  audio_file : string;
  language : option string;
  priority : Z;
  task_id : string;
  timestamp : Z
}.

(** [TranscriptionTask.__lt__] *)
Definition task_lt (self other : TranscriptionTask) : bool :=
  if negb (priority self =? priority other)
  then priority self <? priority other
  else timestamp self <? timestamp other.

(** [queue.PriorityQueue] of the standard library keeps a heap ordered by
    [__lt__], and [get] removes a least item of it.  [pq_extract t q] splits
    [t :: q] into a least item (the earliest one put, when several are
    incomparable) and the remaining items. *)
Fixpoint pq_extract (t : TranscriptionTask) (q : list TranscriptionTask)
  : TranscriptionTask * list TranscriptionTask :=
  match q with
  | [] => (t, [])
  | u :: q' =>
      let '(m, rest) := pq_extract u q' in
      if task_lt m t then (m, t :: rest) else (t, q)
  end.

Definition pq_put (q : list TranscriptionTask) (t : TranscriptionTask)
  : list TranscriptionTask := q ++ [t].

Definition pq_get (q : list TranscriptionTask)
  : option (TranscriptionTask * list TranscriptionTask) :=
  match q with
  | [] => None
  | t :: q' => Some (pq_extract t q')
  end.

(** [TranscriptionService.submit_task]: the task id and the time stamp come
    from the clock. *)
Definition submit_task (q : list TranscriptionTask) (now : Z) (id : string)
    (file : string) (lang : option string) (prio : Z)
  : string * list TranscriptionTask :=
  let task := {| audio_file := file; language := lang; priority := prio;
                 task_id := id; timestamp := now |} in
  (id, pq_put q task).

(** ** The worker's transcription function *)

(** [TranscriptionService._transcribe_task]; [model] is the call
    [self.model.transcribe(audio_file, **options)["text"]], which receives the
    language only when it is truthy. *)
Definition _transcribe_task
    (model : string -> option string -> outcome string)
    (audio_file : string) (language : option string) : string :=
  let options := if truthy language then language else None in
  match model audio_file options with
  | Returned text => strip text
  | Raised => ""
  end.

(** ** Audio *)

Definition SAMPLE_RATE : Z := 16000.
Definition BUFFER_DURATION : Z := 5.
Definition LONG_BUFFER_DURATION : Z := 60.
Definition CONTEXT_DURATION : Z := 30.
Definition SILENCE_THRESHOLD : Q := 1 # 100.
Definition SILENCE_DURATION : Z := 3.

Definition Audio : Type := list Q.

Definition Qltb (x y : Q) : bool := negb (Qle_bool y x).

Definition mean_abs (audio_data : Audio) : Q :=
  (fold_right Qplus 0 (map Qabs audio_data)
   / inject_Z (Z.of_nat (List.length audio_data)))%Q.

(** [is_silence] with the default threshold; the mean of an empty array is
    not a number and compares false. *)
Definition is_silence (audio_data : Audio) : bool :=
  match audio_data with
  | [] => false
  | _ => Qltb (mean_abs audio_data) SILENCE_THRESHOLD
  end.

(** [np.concatenate] of a list whose items are arrays or [None]: raises on
    the empty list and on [None]. *)
Fixpoint concat_arrays (l : list (option Audio)) : outcome Audio :=
  match l with
  | [] => Returned []
  | None :: _ => Raised
  | Some a :: l' =>
      match concat_arrays l' with
      | Returned r => Returned (a ++ r)
      | Raised => Raised
      end
  end.

Definition np_concatenate (l : list (option Audio)) : outcome Audio :=
  match l with
  | [] => Raised
  | _ => concat_arrays l
  end.

(** ** The context buffer: [collections.deque] with [maxlen] *)

(** [deque.append]: the item is added on the right and, when the length then
    exceeds [maxlen], the leftmost item is dropped. *)
Definition deque_append {A : Type} (maxlen : Z) (d : list A) (x : A) : list A :=
  let d' := d ++ [x] in
  if maxlen <? Z.of_nat (List.length d') then tl d' else d'.

(** [int(args.context_seconds / BUFFER_DURATION)]: the quotient truncated
    toward zero.  The code divides in floating point: the two agree for
    arguments of magnitude up to 2^53; beyond that the code's quotient is
    rounded, and it raises when it leaves the range of a float. *)
Definition context_chunks (context_seconds : Z) : Z :=
  Z.quot context_seconds BUFFER_DURATION.

(** [deque(maxlen=context_chunks)] raises on a negative [maxlen].  (It also
    raises when [maxlen] exceeds the largest size of a container, about
    9.2e18, which no length of context in seconds below 4.6e19 reaches.) *)
Definition new_context_buffer (A : Type) (maxlen : Z) : outcome (list A) :=
  if maxlen <? 0 then Raised else Returned [].

(** ** The main loop: data *)

(** The tuple [(audio_data, temp_file, transcript)]. *)
Record chunk_info : Type := {
  ci_audio : option Audio;
  ci_file : string;
  ci_transcript : option string
}.

(** A value of the [pending_tasks] dictionary; an absent ['is_long'] key reads
    as [False]. *)
Record task_info : Type := {
  ti_chunk_info : chunk_info;
  ti_timestamp : Z;
  ti_processed : bool;
  ti_is_long : bool;
  ti_long_timestamp : option string
}.

(** Calls that leave the main loop. *)
Inductive event : Type :=
| SubmitTask (file : string) (lang : option string) (prio : Z)
| SaveAudio (path : string) (audio : Audio)
| WriteText (path : string) (text : string)
| Classify (text : string)
| ClassifyWithDetails (text : string).

(** Command-line arguments used by the loop. *)
Record args : Type := {
  arg_language : option string;
  recordings_dir : string;
  context_seconds : Z;
  silence_seconds : Z
}.

Definition default_args : args :=
  {| arg_language := None; recordings_dir := "recordings";
     context_seconds := CONTEXT_DURATION; silence_seconds := SILENCE_DURATION |}.

(** The wake classifier: [classify] and the confidence read from
    [classify_with_details]. *)
Record GooseWakeClassifier : Type := {
  classify : string -> outcome bool;
  classify_with_details : string -> outcome Q
}.

(** The local variables of [main] that the loop reads and writes, and the
    calls made so far, oldest first. *)
Record locals : Type := {
  context_buffer : list chunk_info;
  conversation_counter : Z;
  last_long_transcription_time : Z;
  is_active_listening : bool;
  active_conversation_chunks : list chunk_info;
  silence_counter : Z;
  pending_tasks : list (string * task_info);
  trace : list event
}.

(** What one pass of the loop reads from outside: the blocks delivered by the
    audio callback, the clock, and the answers of [get_result] in the first
    and in the second polling loop. *)
Record tick_input : Type := {
  in_blocks : list Audio;
  in_temp_file : string;
  in_task_id : string;
  in_submit_time : Z;
  in_poll1 : string -> option string;
  in_conversation_stamp : string;
  in_current_time : Z;
  in_long_stamp : string;
  in_long_task_id : string;
  in_poll2 : string -> option string
}.

Definition set_context_buffer (v : list chunk_info) (s : locals) : locals :=
  {| context_buffer := v;
     conversation_counter := conversation_counter s;
     last_long_transcription_time := last_long_transcription_time s;
     is_active_listening := is_active_listening s;
     active_conversation_chunks := active_conversation_chunks s;
     silence_counter := silence_counter s;
     pending_tasks := pending_tasks s;
     trace := trace s |}.

Definition set_conversation_counter (v : Z) (s : locals) : locals :=
  {| context_buffer := context_buffer s;
     conversation_counter := v;
     last_long_transcription_time := last_long_transcription_time s;
     is_active_listening := is_active_listening s;
     active_conversation_chunks := active_conversation_chunks s;
     silence_counter := silence_counter s;
     pending_tasks := pending_tasks s;
     trace := trace s |}.

Definition set_last_long_transcription_time (v : Z) (s : locals) : locals :=
  {| context_buffer := context_buffer s;
     conversation_counter := conversation_counter s;
     last_long_transcription_time := v;
     is_active_listening := is_active_listening s;
     active_conversation_chunks := active_conversation_chunks s;
     silence_counter := silence_counter s;
     pending_tasks := pending_tasks s;
     trace := trace s |}.

Definition set_is_active_listening (v : bool) (s : locals) : locals :=
  {| context_buffer := context_buffer s;
     conversation_counter := conversation_counter s;
     last_long_transcription_time := last_long_transcription_time s;
     is_active_listening := v;
     active_conversation_chunks := active_conversation_chunks s;
     silence_counter := silence_counter s;
     pending_tasks := pending_tasks s;
     trace := trace s |}.

Definition set_active_conversation_chunks (v : list chunk_info) (s : locals)
  : locals :=
  {| context_buffer := context_buffer s;
     conversation_counter := conversation_counter s;
     last_long_transcription_time := last_long_transcription_time s;
     is_active_listening := is_active_listening s;
     active_conversation_chunks := v;
     silence_counter := silence_counter s;
     pending_tasks := pending_tasks s;
     trace := trace s |}.

Definition set_silence_counter (v : Z) (s : locals) : locals :=
  {| context_buffer := context_buffer s;
     conversation_counter := conversation_counter s;
     last_long_transcription_time := last_long_transcription_time s;
     is_active_listening := is_active_listening s;
     active_conversation_chunks := active_conversation_chunks s;
     silence_counter := v;
     pending_tasks := pending_tasks s;
     trace := trace s |}.

Definition set_pending_tasks (v : list (string * task_info)) (s : locals)
  : locals :=
  {| context_buffer := context_buffer s;
     conversation_counter := conversation_counter s;
     last_long_transcription_time := last_long_transcription_time s;
     is_active_listening := is_active_listening s;
     active_conversation_chunks := active_conversation_chunks s;
     silence_counter := silence_counter s;
     pending_tasks := v;
     trace := trace s |}.

Definition add_event (e : event) (s : locals) : locals :=
  {| context_buffer := context_buffer s;
     conversation_counter := conversation_counter s;
     last_long_transcription_time := last_long_transcription_time s;
     is_active_listening := is_active_listening s;
     active_conversation_chunks := active_conversation_chunks s;
     silence_counter := silence_counter s;
     pending_tasks := pending_tasks s;
     trace := trace s ++ [e] |}.

(** ** The main loop: a state and exception monad over [locals] *)

Definition M (A : Type) : Type := locals -> outcome (A * locals).

Definition ret {A : Type} (a : A) : M A := fun s => Returned (a, s).

Definition bind {A B : Type} (m : M A) (k : A -> M B) : M B :=
  fun s =>
    match m s with
    | Returned (a, s') => k a s'
    | Raised => Raised
    end.

Notation "x <- c1 ;; c2" := (bind c1 (fun x => c2))
  (at level 61, c1 at next level, right associativity).
Notation "c1 ;; c2" := (bind c1 (fun _ => c2))
  (at level 61, right associativity).

Definition get : M locals := fun s => Returned (s, s).

Definition modify (f : locals -> locals) : M unit :=
  fun s => Returned (tt, f s).

Definition emit (e : event) : M unit := modify (add_event e).

(** A call to a collaborator: its exception is the loop's. *)
Definition call {A : Type} (o : outcome A) : M A :=
  fun s =>
    match o with
    | Returned a => Returned (a, s)
    | Raised => Raised
    end.

(** ** Dictionaries that keep insertion order *)

(** [d[k] = v] *)
Fixpoint dict_set {V : Type} (d : list (string * V)) (k : string) (v : V)
  : list (string * V) :=
  match d with
  | [] => [(k, v)]
  | (k', v') :: d' =>
      if String.eqb k' k then (k, v) :: d' else (k', v') :: dict_set d' k v
  end.

Definition mem (k : string) (l : list string) : bool :=
  existsb (String.eqb k) l.

(** [del d[k]] for every [k] of [ks] that is a key of [d]. *)
Definition dict_del_all {V : Type} (d : list (string * V)) (ks : list string)
  : list (string * V) :=
  filter (fun kv => negb (mem (fst kv) ks)) d.

(** ** The main loop: wake word, conversation and periodic transcription *)

(** [os.path.join] of a directory and a file name. *)
Definition path_join (a b : string) : string :=
  match first_char b, last_char a with
  | Some "/"%char, _ => b
  | _, None => b
  | _, Some "/"%char => (a ++ b)%string
  | _, Some _ => (a ++ "/" ++ b)%string
  end.

(** [contains_wake_word]; the classifier argument is optional. *)
Definition contains_wake_word (text : string)
    (classifier : option GooseWakeClassifier) : M bool :=
  if str_in "goose" (lower text) then
    match classifier with
    | Some c => emit (Classify text) ;; call (classify c text)
    | None => ret false
    end
  else ret false.

(** The transcripts of a list of chunks that are neither [None] nor empty. *)
Fixpoint transcripts_of (l : list chunk_info) : list string :=
  match l with
  | [] => []
  | c :: l' =>
      match ci_transcript c with
      | Some (String a r) => String a r :: transcripts_of l'
      | _ => transcripts_of l'
      end
  end.

(** The block run when enough silence has been counted: the conversation is
    saved and the loop returns to passive listening. *)
Definition end_conversation (a : args) (stamp : string) : M unit :=
  s <- get ;;
  let all_audio :=
    map ci_audio (context_buffer s)
    ++ map ci_audio (active_conversation_chunks s) in
  let all_transcripts :=
    transcripts_of (context_buffer s)
    ++ transcripts_of (active_conversation_chunks s) in
  match all_audio with
  | [] => ret tt
  | _ =>
      full_audio <- call (np_concatenate all_audio) ;;
      emit (SaveAudio
              (path_join (recordings_dir a) ("conversation_" ++ stamp ++ ".wav")%string)
              full_audio) ;;
      emit (WriteText
              (path_join (recordings_dir a) ("conversation_" ++ stamp ++ ".txt")%string)
              (String.concat " " all_transcripts)) ;;
      modify (fun s => set_conversation_counter (conversation_counter s + 1) s)
  end ;;
  modify (set_is_active_listening false) ;;
  modify (set_active_conversation_chunks []) ;;
  modify (set_silence_counter 0).

(** A transcribed chunk while listening actively. *)
Definition process_active (a : args) (current_is_silence : bool)
    (stamp : string) (ci : chunk_info) : M unit :=
  modify (fun s =>
    set_active_conversation_chunks (active_conversation_chunks s ++ [ci]) s) ;;
  modify (fun s =>
    set_silence_counter
      (if current_is_silence then silence_counter s + 1 else 0) s) ;;
  s <- get ;;
  if silence_counter s >=? silence_seconds a / BUFFER_DURATION
  then end_conversation a stamp
  else ret tt.

(** A transcribed chunk while listening passively. *)
Definition process_passive (a : args) (classifier : GooseWakeClassifier)
    (transcript : string) (ci : chunk_info) : M unit :=
  modify (fun s =>
    set_context_buffer
      (deque_append (context_chunks (context_seconds a)) (context_buffer s) ci)
      s) ;;
  if truthy (Some transcript) then
    woke <- contains_wake_word transcript (Some classifier) ;;
    if woke then
      emit (ClassifyWithDetails transcript) ;;
      call (classify_with_details classifier transcript) ;;
      modify (set_is_active_listening true) ;;
      modify (fun s => set_active_conversation_chunks (context_buffer s) s) ;;
      modify (set_silence_counter 0)
    else ret tt
  else ret tt.

(** The body of the first polling loop for one item of [pending_tasks]; the
    result lists what the body appends to [completed_tasks]. *)
Definition process_task (a : args) (classifier : GooseWakeClassifier)
    (inp : tick_input) (current_is_silence : bool)
    (item : string * task_info) : M (list string) :=
  let '(tid, info) := item in
  if ti_processed info then ret []
  else
    match in_poll1 inp tid with
    | None => ret []
    | Some transcript =>
        let ci := {| ci_audio := ci_audio (ti_chunk_info info);
                     ci_file := ci_file (ti_chunk_info info);
                     ci_transcript := Some transcript |} in
        let info' := {| ti_chunk_info := ci;
                        ti_timestamp := ti_timestamp info;
                        ti_processed := true;
                        ti_is_long := ti_is_long info;
                        ti_long_timestamp := ti_long_timestamp info |} in
        modify (fun s => set_pending_tasks (dict_set (pending_tasks s) tid info') s) ;;
        s <- get ;;
        (if is_active_listening s
         then process_active a current_is_silence (in_conversation_stamp inp) ci
         else process_passive a classifier transcript ci) ;;
        ret [tid]
    end.

(** [for task_id, task_info in pending_tasks.items()] *)
Fixpoint first_loop (a : args) (classifier : GooseWakeClassifier)
    (inp : tick_input) (current_is_silence : bool)
    (items : list (string * task_info)) : M (list string) :=
  match items with
  | [] => ret []
  | item :: rest =>
      c <- process_task a classifier inp current_is_silence item ;;
      cs <- first_loop a classifier inp current_is_silence rest ;;
      ret (c ++ cs)
  end.

(** The periodic long transcription, submitted once a minute. *)
Definition periodic (a : args) (inp : tick_input) : M unit :=
  s <- get ;;
  if in_current_time inp - last_long_transcription_time s
     >=? LONG_BUFFER_DURATION
  then
    (match context_buffer s, is_active_listening s with
     | _ :: _, false =>
         let buffer_audio := map ci_audio (context_buffer s) in
         let long_file :=
           path_join (recordings_dir a)
                     ("periodic_" ++ in_long_stamp inp ++ ".wav")%string in
         long_audio <- call (np_concatenate buffer_audio) ;;
         emit (SaveAudio long_file long_audio) ;;
         emit (SubmitTask long_file (arg_language a) Priority.LOW) ;;
         modify (fun s =>
           set_pending_tasks
             (dict_set (pending_tasks s) (in_long_task_id inp)
                {| ti_chunk_info := {| ci_audio := None; ci_file := long_file;
                                       ci_transcript := None |};
                   ti_timestamp := in_current_time inp;
                   ti_processed := false;
                   ti_is_long := true;
                   ti_long_timestamp := Some (in_long_stamp inp) |}) s)
     | _, _ => ret tt
     end) ;;
    modify (set_last_long_transcription_time (in_current_time inp))
  else ret tt.

(** The body of the second polling loop, for the long transcriptions. *)
Definition process_long (a : args) (inp : tick_input)
    (item : string * task_info) : M unit :=
  let '(tid, info) := item in
  if ti_is_long info && negb (ti_processed info) then
    match in_poll2 inp tid with
    | None => ret tt
    | Some transcript =>
        let info' := {| ti_chunk_info := ti_chunk_info info;
                        ti_timestamp := ti_timestamp info;
                        ti_processed := true;
                        ti_is_long := ti_is_long info;
                        ti_long_timestamp := ti_long_timestamp info |} in
        modify (fun s => set_pending_tasks (dict_set (pending_tasks s) tid info') s) ;;
        let long_timestamp :=
          match ti_long_timestamp info with
          | Some t => t
          | None => "None"
          end in
        emit (WriteText
                (path_join (recordings_dir a)
                           ("periodic_" ++ long_timestamp ++ ".txt")%string)
                transcript)
    end
  else ret tt.

(** [for task_id, task_info in list(pending_tasks.items())] *)
Fixpoint second_loop (a : args) (inp : tick_input)
    (items : list (string * task_info)) : M unit :=
  match items with
  | [] => ret tt
  | item :: rest => process_long a inp item ;; second_loop a inp rest
  end.

(** One pass of [while running]: nothing happens when no audio arrived. *)
Definition tick (a : args) (classifier : GooseWakeClassifier)
    (inp : tick_input) : M unit :=
  match in_blocks inp with
  | [] => ret tt
  | _ =>
      let audio_data := List.concat (in_blocks inp) in
      emit (SaveAudio (in_temp_file inp) audio_data) ;;
      let current_is_silence := is_silence audio_data in
      emit (SubmitTask (in_temp_file inp) (arg_language a) Priority.HIGH) ;;
      modify (fun s =>
        set_pending_tasks
          (dict_set (pending_tasks s) (in_task_id inp)
             {| ti_chunk_info := {| ci_audio := Some audio_data;
                                    ci_file := in_temp_file inp;
                                    ci_transcript := None |};
                ti_timestamp := in_submit_time inp;
                ti_processed := false;
                ti_is_long := false;
                ti_long_timestamp := None |}) s) ;;
      s <- get ;;
      completed_tasks <-
        first_loop a classifier inp current_is_silence (pending_tasks s) ;;
      modify (fun s =>
        set_pending_tasks (dict_del_all (pending_tasks s) completed_tasks) s) ;;
      periodic a inp ;;
      s <- get ;;
      second_loop a inp (pending_tasks s)
  end.

(** The variables as [main] sets them before the loop; [now] is the clock. *)
Definition main_init (a : args) (now : Z) : outcome locals :=
  match new_context_buffer chunk_info (context_chunks (context_seconds a)) with
  | Raised => Raised
  | Returned buf =>
      Returned {| context_buffer := buf;
                  conversation_counter := 0;
                  last_long_transcription_time := now;
                  is_active_listening := false;
                  active_conversation_chunks := [];
                  silence_counter := 0;
                  pending_tasks := [];
                  trace := [] |}
  end.

(** A run of the loop over successive inputs. *)
Fixpoint run (a : args) (classifier : GooseWakeClassifier)
    (inps : list tick_input) : M unit :=
  match inps with
  | [] => ret tt
  | inp :: rest => tick a classifier inp ;; run a classifier rest
  end.

(** ** Sample inputs *)

Definition task_high_late : TranscriptionTask :=
  {| audio_file := "audio_chunk_20240101_120005.wav"; language := None;
     priority := Priority.HIGH; task_id := "1704110405.2_1"; timestamp := 20 |}.

Definition task_low_early : TranscriptionTask :=
  {| audio_file := "periodic_20240101_120000.wav"; language := None;
     priority := Priority.LOW; task_id := "1704110400.1_2"; timestamp := 10 |}.

Definition task_high_early : TranscriptionTask :=
  {| audio_file := "audio_chunk_20240101_120000.wav"; language := None;
     priority := Priority.HIGH; task_id := "1704110400.0_3"; timestamp := 5 |}.

(** A transcription model that pads its text and fails on one file. *)
Definition padded_model (file : string) (lang : option string)
  : outcome string :=
  if String.eqb file "broken.wav" then Raised
  else Returned "  hey goose, are you there?
".

(** A chunk of speech and a chunk of near silence, shortened to three
    samples. *)
Definition loud : Audio := [1 # 2; -1 # 2; 1 # 4]%Q.
Definition quiet : Audio := [0; 1 # 1000; -1 # 1000]%Q.

(** A classifier that accepts every text it is asked about. *)
Definition eager_classifier : GooseWakeClassifier :=
  {| classify := fun _ => Returned true;
     classify_with_details := fun _ => Returned (9 # 10)%Q |}.

(** The answers of [get_result] in one pass, as a table. *)
Definition poll_of (l : list (string * string)) (id : string) : option string :=
  match find (fun kv => String.eqb (fst kv) id) l with
  | Some kv => Some (snd kv)
  | None => None
  end.

(** The pass numbered [n]: one block of audio, the clock at [now], and the
    transcripts [polled] ready in the first polling loop. *)
Definition make_input (n : string) (audio : Audio) (now : Z)
    (polled : list (string * string)) : tick_input :=
  {| in_blocks := [audio];
     in_temp_file := ("audio_chunk_" ++ n ++ ".wav")%string;
     in_task_id := ("task_" ++ n)%string;
     in_submit_time := now;
     in_poll1 := poll_of polled;
     in_conversation_stamp := n;
     in_current_time := now;
     in_long_stamp := n;
     in_long_task_id := ("long_" ++ n)%string;
     in_poll2 := fun _ => None |}.

Definition start : locals :=
  {| context_buffer := [];
     conversation_counter := 0;
     last_long_transcription_time := 0;
     is_active_listening := false;
     active_conversation_chunks := [];
     silence_counter := 0;
     pending_tasks := [];
     trace := [] |}.

Definition heard (n : string) (audio : Audio) (text : string) : chunk_info :=
  {| ci_audio := Some audio;
     ci_file := ("audio_chunk_" ++ n ++ ".wav")%string;
     ci_transcript := Some text |}.

(** A pending chunk that has not been transcribed yet. *)
Definition waiting (n : string) (audio : Audio) : string * task_info :=
  (("task_" ++ n)%string,
   {| ti_chunk_info := {| ci_audio := Some audio;
                          ci_file := ("audio_chunk_" ++ n ++ ".wav")%string;
                          ci_transcript := None |};
      ti_timestamp := 0;
      ti_processed := false;
      ti_is_long := false;
      ti_long_timestamp := None |}).

(** The arguments with [--silence-seconds 10]: two silent chunks end a
    conversation. *)
Definition args_10s : args :=
  {| arg_language := None; recordings_dir := "recordings";
     context_seconds := CONTEXT_DURATION; silence_seconds := 10 |}.

(** Three passes: speech with the wake word, then near silence, then speech;
    each transcript is ready one pass after its chunk was recorded. *)
Definition wake_inputs : list tick_input :=
  [make_input "1" loud 5 [];
   make_input "2" quiet 10 [("task_1", "hey goose")]].

Definition speech_after_silence : tick_input :=
  make_input "3" loud 15 [("task_2", "")].

(** The variables after [wake_inputs]: the loop has become active. *)
Definition after_wake : locals :=
  Eval vm_compute in
    match run args_10s eager_classifier wake_inputs start with
    | Returned (_, s) => s
    | Raised => start
    end.

(** ** The records a pass of the first polling loop appends *)

(** An item of [pending_tasks] is taken by the first polling loop when it is
    not processed yet and [get_result] has its transcript. *)
Definition ready (inp : tick_input) (item : string * task_info) : bool :=
  negb (ti_processed (snd item)) &&
  match in_poll1 inp (fst item) with
  | Some _ => true
  | None => false
  end.

(** The chunk of an item with the transcript [get_result] returned. *)
Definition filled (inp : tick_input) (item : string * task_info) : chunk_info :=
  {| ci_audio := ci_audio (ti_chunk_info (snd item));
     ci_file := ci_file (ti_chunk_info (snd item));
     ci_transcript := in_poll1 inp (fst item) |}.



(** With the default arguments: near silence, the wake phrase, and speech
    that goes on in the fourth pass. *)
Definition conversation_inputs : list tick_input :=
  [make_input "1" quiet 5 [];
   make_input "2" loud 10 [("task_1", "")];
   make_input "3" loud 15 [("task_2", "is this goose listening")]].

Definition still_speaking : tick_input :=
  make_input "4" loud 20 [("task_3", "yes please help")].

(** The arguments with [--silence-seconds 5]: one silent chunk ends a
    conversation. *)
Definition args_5s : args :=
  {| arg_language := None; recordings_dir := "recordings";
     context_seconds := CONTEXT_DURATION; silence_seconds := 5 |}.

Definition then_silence : tick_input :=
  make_input "4" quiet 20 [("task_3", "yes please help")].

(** The minute has passed in the second pass, which submits a long
    transcription; its transcript is ready in the third pass. *)
Definition periodic_inputs : list tick_input :=
  [make_input "1" loud 5 [];
   make_input "2" loud 61 [("task_1", "please feed the")];
   make_input "3" quiet 66 [("task_2", "birds");
                            ("long_2", "please feed the goose")]].

Definition periodic_record : chunk_info :=
  {| ci_audio := None;
     ci_file := "recordings/periodic_2.wav";
     ci_transcript := Some "please feed the goose" |}.

(** ** Predicates used in the statements *)

(** [t] is [text] without its leading and trailing white space. *)
Definition trimmed_of (text t : string) : Prop :=
  exists l r : string,
    text = (l ++ t ++ r)%string /\
    all_space l = true /\ all_space r = true /\
    not_space (first_char t) = true /\ not_space (last_char t) = true.

(** [m] keeps the property [P] of the local variables whenever it returns. *)
Definition preserves {A : Type} (P : locals -> Prop) (m : M A) : Prop :=
  forall s a s', P s -> m s = Returned (a, s') -> P s'.

(** The bound on the context buffer, as a property of the local variables. *)
Definition context_bounded (maxlen : Z) (s : locals) : Prop :=
  Z.of_nat (List.length (context_buffer s)) <= maxlen.

(** The variables of the listening state machine have the given values. *)
Definition conversation_state_is (c x : list chunk_info) (b : bool) (n : Z)
    (s : locals) : Prop :=
  context_buffer s = c /\ active_conversation_chunks s = x /\
  is_active_listening s = b /\ silence_counter s = n.

(** ** The transcription service: queue, futures and results *)

(** A future of the thread pool, as [future.result(timeout)] finds it: still
    running when the timeout expires, finished with the text the worker
    function returned, or failed with an exception. *)
Inductive future : Type :=
| Running (file : string) (lang : option string)
| Finished (text : string)
| Failed.

(** [d.get(k)] and [del d[k]] on a dictionary whose keys are distinct. *)
Fixpoint dict_get {V : Type} (d : list (string * V)) (k : string) : option V :=
  match d with
  | [] => None
  | (k', v) :: d' => if String.eqb k' k then Some v else dict_get d' k
  end.

Definition dict_del {V : Type} (d : list (string * V)) (k : string)
  : list (string * V) :=
  filter (fun kv => negb (String.eqb (fst kv) k)) d.

Definition keys {V : Type} (d : list (string * V)) : list string := map fst d.

(** The fields of [TranscriptionService] that the methods read and write. *)
Record TranscriptionService : Type := {
  task_queue : list TranscriptionTask;
  futures : list (string * future);
  results : list (string * string)
}.

Definition new_service : TranscriptionService :=
  {| task_queue := []; futures := []; results := [] |}.

(** [TranscriptionService.submit_task] on the service. *)
Definition service_submit (svc : TranscriptionService) (now : Z) (id : string)
    (file : string) (lang : option string) (prio : Z)
  : string * TranscriptionService :=
  let '(tid, q) := submit_task (task_queue svc) now id file lang prio in
  (tid, {| task_queue := q; futures := futures svc; results := results svc |}).

(** One pass of [_worker_loop]: the least task of the queue, if there is one,
    is handed to the thread pool and its future is stored under the task id. *)
Definition worker_step (svc : TranscriptionService) : TranscriptionService :=
  match pq_get (task_queue svc) with
  | None => svc
  | Some (task, rest) =>
      {| task_queue := rest;
         futures := dict_set (futures svc) (task_id task)
                      (Running (audio_file task) (language task));
         results := results svc |}
  end.

(** A thread of the pool completes the call of [_transcribe_task] behind the
    future stored under [id]. *)
Definition finish (model : string -> option string -> outcome string)
    (svc : TranscriptionService) (id : string) : TranscriptionService :=
  match dict_get (futures svc) id with
  | Some (Running file lang) =>
      {| task_queue := task_queue svc;
         futures := dict_set (futures svc) id
                      (Finished (_transcribe_task model file lang));
         results := results svc |}
  | _ => svc
  end.

(** [TranscriptionService.get_result] called with a timeout. *)
Definition get_result (svc : TranscriptionService) (id : string)
  : option string * TranscriptionService :=
  match dict_get (results svc) id with
  | Some result =>
      (Some result,
       {| task_queue := task_queue svc; futures := futures svc;
          results := dict_del (results svc) id |})
  | None =>
      match dict_get (futures svc) id with
      | Some (Finished text) =>
          (Some text,
           {| task_queue := task_queue svc;
              futures := dict_del (futures svc) id;
              results := results svc |})
      | Some (Running _ _) => (None, svc)
      | Some Failed =>
          (Some "",
           {| task_queue := task_queue svc;
              futures := dict_del (futures svc) id;
              results := results svc |})
      | None => (None, svc)
      end
  end.

(** The tasks in the order in which successive passes of the worker loop
    take them from the queue. *)
Fixpoint dispatch_order (passes : nat) (q : list TranscriptionTask)
  : list TranscriptionTask :=
  match passes with
  | O => []
  | S n =>
      match pq_get q with
      | None => []
      | Some (task, rest) => task :: dispatch_order n rest
      end
  end.

(** [b] does not precede [a] in the order of the queue. *)
Definition not_before (a b : TranscriptionTask) : Prop := task_lt b a = false.

(** The last [n] items of a list. *)
Definition lastn {A : Type} (n : nat) (l : list A) : list A :=
  skipn (List.length l - n) l.

(** The sum of the absolute values of the samples. *)
Definition sum_abs (audio_data : Audio) : Q :=
  fold_right Qplus 0%Q (map Qabs audio_data).

(** [text] contains the wake word in some letter case. *)
Definition mentions_goose (text : string) : Prop :=
  exists a w b : string, text = (a ++ w ++ b)%string /\ lower w = "goose".

(** What holds of the listening state between two passes of the loop: the
    counters are not negative; while passive there is no conversation and no
    silence counted; while active the conversation starts with the records of
    the context buffer. *)
Definition listening_invariant (s : locals) : Prop :=
  0 <= silence_counter s /\ 0 <= conversation_counter s /\
  if is_active_listening s
  then exists extra,
         active_conversation_chunks s = context_buffer s ++ extra
  else active_conversation_chunks s = [] /\ silence_counter s = 0.

(** The variables as the body of a pass finds them before the first polling
    loop: the chunk is saved, submitted and registered as pending. *)
Definition registered (a : args) (inp : tick_input) (s : locals) : locals :=
  set_pending_tasks
    (dict_set (pending_tasks s) (in_task_id inp)
       {| ti_chunk_info := {| ci_audio := Some (List.concat (in_blocks inp));
                              ci_file := in_temp_file inp;
                              ci_transcript := None |};
          ti_timestamp := in_submit_time inp;
          ti_processed := false;
          ti_is_long := false;
          ti_long_timestamp := None |})
    (add_event (SubmitTask (in_temp_file inp) (arg_language a) Priority.HIGH)
       (add_event (SaveAudio (in_temp_file inp) (List.concat (in_blocks inp)))
          s)).

(** The task [k] is pending under a single entry, which is processed. *)
Definition settled (k : string) (s : locals) : Prop :=
  NoDup (keys (pending_tasks s)) /\
  exists info, In (k, info) (pending_tasks s) /\ ti_processed info = true.

(** The submissions of long transcriptions recorded in a trace. *)
Fixpoint low_submissions (tr : list event) : list string :=
  match tr with
  | [] => []
  | SubmitTask file _ prio :: tr' =>
      if prio =? Priority.LOW then file :: low_submissions tr'
      else low_submissions tr'
  | _ :: tr' => low_submissions tr'
  end.

(** A pass more than a minute after the start, while the loop is active. *)
Definition late_speech : tick_input :=
  make_input "3" loud 75 [("task_2", "")].

Definition after_late_speech : locals :=
  Eval vm_compute in
    match tick args_10s eager_classifier late_speech after_wake with
    | Returned (_, s) => s
    | Raised => start
    end.

(** The entry of [pending_tasks] for a long transcription. *)
Definition long_entry (a : args) (inp : tick_input) : task_info :=
  {| ti_chunk_info :=
       {| ci_audio := None;
          ci_file := path_join (recordings_dir a)
                       ("periodic_" ++ in_long_stamp inp ++ ".wav")%string;
          ci_transcript := None |};
     ti_timestamp := in_current_time inp;
     ti_processed := false;
     ti_is_long := true;
     ti_long_timestamp := Some (in_long_stamp inp) |}.

(** The variables while passive with two chunks in the context buffer. *)
Definition two_chunks_heard : locals :=
  set_context_buffer [heard "1" loud "please feed the"; heard "2" quiet ""]
    start.

(** The same pass with answers of [get_result] in the second polling loop. *)
Definition with_poll2 (inp : tick_input) (polled : list (string * string))
  : tick_input :=
  {| in_blocks := in_blocks inp;
     in_temp_file := in_temp_file inp;
     in_task_id := in_task_id inp;
     in_submit_time := in_submit_time inp;
     in_poll1 := in_poll1 inp;
     in_conversation_stamp := in_conversation_stamp inp;
     in_current_time := in_current_time inp;
     in_long_stamp := in_long_stamp inp;
     in_long_task_id := in_long_task_id inp;
     in_poll2 := poll_of polled |}.

(** The long transcription submitted in the second pass is ready when the
    second polling loop of the third pass runs. *)
Definition long_poll_inputs : list tick_input :=
  [make_input "1" loud 5 [];
   make_input "2" loud 61 [("task_1", "please feed the")];
   with_poll2 (make_input "3" quiet 66 [("task_2", "birds")])
              [("long_2", "please feed the birds")]].

Definition after_long_poll : locals :=
  Eval vm_compute in
    match run default_args eager_classifier long_poll_inputs start with
    | Returned (_, s) => s
    | Raised => start
    end.

Definition fourth_pass : tick_input := make_input "4" quiet 71 [("task_3", "")].

Definition after_fourth_pass : locals :=
  Eval vm_compute in
    match tick default_args eager_classifier fourth_pass after_long_poll with
    | Returned (_, s) => s
    | Raised => start
    end.

(** The variables before the second polling loop of the third pass. *)
Definition before_long_poll : locals :=
  set_pending_tasks
    [("long_2", long_entry default_args (make_input "2" loud 61 []))]
    two_chunks_heard.

(** The arguments with [--context-seconds 4]: the context buffer has no room. *)
Definition short_args : args :=
  {| arg_language := None; recordings_dir := "recordings";
     context_seconds := 4; silence_seconds := SILENCE_DURATION |}.

Definition after_short_run : locals :=
  Eval vm_compute in
    match run short_args eager_classifier
            [make_input "1" loud 5 [];
             make_input "2" loud 70 [("task_1", "good morning")]] start with
    | Returned (_, s) => s
    | Raised => start
    end.

(** A service with one transcription in progress. *)
Definition busy_service : TranscriptionService :=
  {| task_queue := [];
     futures := [("task_1", Running "audio_chunk_1.wav" None)];
     results := [] |}.

(** ** The temporary file removed at the end of a pass *)

(** The variable [temp_file] after the first polling loop: the loop rebinds
    it to the file of every chunk whose transcript it retrieves, so it names
    the file of the last such chunk, or the file recorded in this pass when
    no transcript was retrieved. *)
Definition temp_file_after_first_loop (inp : tick_input)
    (items : list (string * task_info)) : string :=
  fold_left
    (fun file item =>
       if ready inp item then ci_file (ti_chunk_info (snd item)) else file)
    items (in_temp_file inp).

(** The file given to [os.remove] at the end of a pass that started with the
    variables [s] and ended with [s']: [temp_file], unless a record of the
    context buffer or of the conversation names it. *)
Definition pass_cleanup (a : args) (inp : tick_input) (s s' : locals)
  : option string :=
  let temp_file :=
    temp_file_after_first_loop inp (pending_tasks (registered a inp s)) in
  if mem temp_file (map ci_file (context_buffer s'))
     || mem temp_file (map ci_file (active_conversation_chunks s'))
  then None
  else Some temp_file.

Definition first_pass : tick_input := make_input "1" loud 5 [].

Definition after_first_pass : locals :=
  Eval vm_compute in
    match tick default_args eager_classifier first_pass start with
    | Returned (_, s) => s
    | Raised => start
    end.

Definition second_pass : tick_input :=
  make_input "2" loud 10 [("task_1", "good morning")].

Definition after_second_pass : locals :=
  Eval vm_compute in
    match tick default_args eager_classifier second_pass after_first_pass with
    | Returned (_, s) => s
    | Raised => start
    end.

(** ** The first polling loop, record by record *)









(** * Properties *)

(** ** Strings *)


Lemma lstrip_spec (s : string) :
  exists l, s = (l ++ lstrip s)%string /\ all_space l = true /\
            not_space (first_char (lstrip s)) = true.
Proof.
  induction s as [|c r IH]; simpl.
  - exists ""; auto.
  - destruct (isspace c) eqn:Hc.
    + destruct IH as (l & Hl & Hs & Hf).
      exists (String c l); simpl. rewrite Hc, Hs, <- Hl. auto.
    + exists ""; simpl. rewrite Hc. auto.
Qed.

Lemma rstrip_spec (s : string) :
  exists r, s = (rstrip s ++ r)%string /\ all_space r = true /\
            not_space (last_char (rstrip s)) = true.
Proof.
  induction s as [|c r0 IH]; simpl.
  - exists ""; auto.
  - destruct IH as (r & Hr & Hs & Hlast).
    destruct (rstrip r0) as [|d r1] eqn:E.
    + simpl in Hr. subst r0.
      destruct (isspace c) eqn:Hc.
      * exists (String c r); simpl. rewrite Hc, Hs. auto.
      * exists r; simpl. rewrite Hc. auto.
    + exists r. simpl. rewrite Hr at 1. simpl. auto.
Qed.

Lemma rstrip_first (s : string) :
  not_space (first_char s) = true ->
  not_space (first_char (rstrip s)) = true.
Proof.
  destruct s as [|c r]; simpl; auto.
  intros Hc. destruct (rstrip r); simpl; auto.
  destruct (isspace c) eqn:E; simpl; auto.
  rewrite E. reflexivity.
Qed.

Lemma append_assoc (a b c : string) :
  ((a ++ b) ++ c = a ++ (b ++ c))%string.
Proof. induction a; simpl; congruence. Qed.

Lemma strip_trimmed (text : string) : trimmed_of text (strip text).
Proof.
  unfold strip, trimmed_of.
  destruct (lstrip_spec text) as (l & Hl & Hls & Hf).
  destruct (rstrip_spec (lstrip text)) as (r & Hr & Hrs & Hlast).
  exists l, r. repeat split; auto.
  - rewrite <- Hr. exact Hl.
  - apply rstrip_first, Hf.
Qed.

(** ** The order of transcription tasks *)

Lemma task_lt_asym (a b : TranscriptionTask) :
  task_lt a b = true -> task_lt b a = false.
Proof.
  unfold task_lt.
  destruct (priority a =? priority b) eqn:E1;
    destruct (priority b =? priority a) eqn:E2; simpl; lia.
Qed.

Lemma task_lt_neg_trans (a b c : TranscriptionTask) :
  task_lt a b = false -> task_lt b c = false -> task_lt a c = false.
Proof.
  unfold task_lt.
  destruct (priority a =? priority b) eqn:E1;
    destruct (priority b =? priority c) eqn:E2;
    destruct (priority a =? priority c) eqn:E3; simpl; lia.
Qed.

Lemma task_lt_irrefl (a : TranscriptionTask) : task_lt a a = false.
Proof. unfold task_lt. rewrite Z.eqb_refl. simpl. lia. Qed.

(** [pq_extract] returns an item of the queue that no item precedes. *)
Lemma pq_extract_least (q : list TranscriptionTask) :
  forall t m rest,
    pq_extract t q = (m, rest) ->
    In m (t :: q) /\ forall u, In u (t :: q) -> task_lt u m = false.
Proof.
  induction q as [|u q IH]; intros t m rest H; simpl in H.
  - inversion H; subst. split; [left; reflexivity|].
    intros x [<-|[]]. apply task_lt_irrefl.
  - destruct (pq_extract u q) as [m' rest'] eqn:E.
    destruct (IH _ _ _ E) as [Hin Hmin].
    destruct (task_lt m' t) eqn:Hlt; inversion H; subst.
    + split; [right; exact Hin|].
      intros x [<-|Hx]; [apply task_lt_asym, Hlt | apply Hmin, Hx].
    + split; [left; reflexivity|].
      intros x [<-|Hx]; [apply task_lt_irrefl|].
      apply task_lt_neg_trans with m'; [apply Hmin, Hx | exact Hlt].
Qed.

(** The items of the queue are kept: the one returned and the rest. *)
Lemma pq_extract_length (q : list TranscriptionTask) :
  forall t m rest,
    pq_extract t q = (m, rest) -> List.length rest = List.length q.
Proof.
  induction q as [|u q IH]; intros t m rest H; simpl in H.
  - inversion H; reflexivity.
  - destruct (pq_extract u q) as [m' rest'] eqn:E.
    destruct (task_lt m' t); inversion H; subst; simpl; auto.
    f_equal. eapply IH; eauto.
Qed.

(** C5: of two transcription tasks, the one of HIGH priority precedes the one
    of LOW priority whatever their submission times, and of two tasks of the
    same priority the one submitted earlier precedes the other; the one that
    is preceded is not dequeued while the other waits in the queue. *)
Theorem dequeue_order_priority_then_fifo
    (a b : TranscriptionTask)
    (Hab : (priority a = Priority.HIGH /\ priority b = Priority.LOW) \/
           (priority a = priority b /\ timestamp a < timestamp b))
    (q : list TranscriptionTask) (m : TranscriptionTask)
    (rest : list TranscriptionTask)
    (Hin : In a q) (Hget : pq_get q = Some (m, rest)) :
  task_lt a b = true /\ task_lt b a = false /\ m <> b.
Proof.
  assert (Hlt : task_lt a b = true).
  { unfold task_lt, Priority.HIGH, Priority.LOW in *.
    destruct Hab as [[Ha Hb]|[Hp Ht]].
    - rewrite Ha, Hb. reflexivity.
    - rewrite Hp, Z.eqb_refl. simpl. lia. }
  split; [exact Hlt|]. split; [apply task_lt_asym, Hlt|].
  intros ->. destruct q as [|t q']; [discriminate|].
  simpl in Hget. inversion Hget as [He].
  destruct (pq_extract_least _ _ _ _ He) as [_ Hmin].
  rewrite (Hmin a Hin) in Hlt. discriminate.
Qed.

Lemma dequeue_order_witness :
  task_lt task_high_late task_low_early = true /\
  task_lt task_low_early task_high_late = false /\
  task_high_late <> task_low_early.
Proof.
  apply (dequeue_order_priority_then_fifo task_high_late task_low_early
           (or_introl (conj eq_refl eq_refl))
           [task_low_early; task_high_late] task_high_late [task_low_early]).
  - simpl. auto.
  - reflexivity.
Defined.

Example dequeue_three :
  pq_get [task_low_early; task_high_late; task_high_early]
  = Some (task_high_early, [task_low_early; task_high_late]).
Proof. reflexivity. Qed.

(** ** The worker's transcription function *)

(** C9: the worker's transcription function returns the collaborator's text
    without its leading and trailing white space, and the empty string when
    the collaborator raises; it is a total function, no exception leaves it. *)
Theorem transcribe_task_trims_and_swallows
    (model : string -> option string -> outcome string)
    (audio_file : string) (language : option string) :
  match model audio_file (if truthy language then language else None) with
  | Returned text =>
      _transcribe_task model audio_file language = strip text /\
      trimmed_of text (_transcribe_task model audio_file language)
  | Raised => _transcribe_task model audio_file language = ""
  end.
Proof.
  unfold _transcribe_task.
  destruct (model audio_file (if truthy language then language else None)).
  - split; [reflexivity | apply strip_trimmed].
  - reflexivity.
Qed.

Example transcribe_task_padded :
  _transcribe_task padded_model "audio_chunk.wav" (Some "en")
  = "hey goose, are you there?".
Proof. reflexivity. Qed.

Example transcribe_task_broken :
  _transcribe_task padded_model "broken.wav" None = "".
Proof. reflexivity. Qed.

(** ** The wake word *)

(** C10: without a classifier [contains_wake_word] answers [False] for every
    text, also for a text that contains the word, and calls nothing. *)
Theorem contains_wake_word_without_classifier (text : string) (s : locals) :
  contains_wake_word text None s = Returned (false, s).
Proof.
  unfold contains_wake_word.
  destruct (str_in "goose" (lower text)); reflexivity.
Qed.

Example lower_goose : str_in "goose" (lower "Hey GOOSE, what time is it") = true.
Proof. reflexivity. Qed.

(** ** Reasoning about the loop monad *)


Lemma preserves_ret {A : Type} (P : locals -> Prop) (a : A) :
  preserves P (ret a).
Proof. intros s a' s' HP H. inversion H; subst; exact HP. Qed.

Lemma preserves_bind {A B : Type} (P : locals -> Prop) (m : M A) (k : A -> M B) :
  preserves P m -> (forall a, preserves P (k a)) -> preserves P (bind m k).
Proof.
  intros Hm Hk s b s' HP H. unfold bind in H.
  destruct (m s) as [[a s1]|] eqn:E; [|discriminate].
  eapply Hk; [|exact H]. eapply Hm; eauto.
Qed.

Lemma preserves_get (P : locals -> Prop) : preserves P get.
Proof. intros s a s' HP H. inversion H; subst; exact HP. Qed.

Lemma preserves_call {A : Type} (P : locals -> Prop) (o : outcome A) :
  preserves P (call o).
Proof.
  intros s a s' HP H. unfold call in H.
  destruct o; inversion H; subst; exact HP.
Qed.

Lemma preserves_modify (P : locals -> Prop) (f : locals -> locals) :
  (forall s, P s -> P (f s)) -> preserves P (modify f).
Proof. intros Hf s a s' HP H. inversion H; subst; auto. Qed.

Lemma preserves_emit (P : locals -> Prop) (e : event) :
  (forall s, P s -> P (add_event e s)) -> preserves P (emit e).
Proof. apply preserves_modify. Qed.

(** Splits a goal [preserves P m] along the structure of [m]; what is left
    are the updates of the variables. *)
Ltac preserve_step :=
  match goal with
  | |- preserves _ (bind _ _) => apply preserves_bind; [|intros ?]
  | |- preserves _ (ret _) => apply preserves_ret
  | |- preserves _ get => apply preserves_get
  | |- preserves _ (call _) => apply preserves_call
  | |- preserves _ (emit _) => apply preserves_emit; intros ? ?
  | |- preserves _ (modify _) => apply preserves_modify; intros ? ?
  | |- preserves _ (if ?b then _ else _) => destruct b
  | |- preserves _ (match ?x with _ => _ end) => destruct x
  end.

Ltac preserve := repeat preserve_step.

(** ** The context buffer *)

Lemma deque_append_length {A : Type} (maxlen : Z) (d : list A) (x : A) :
  0 <= maxlen ->
  Z.of_nat (List.length d) <= maxlen ->
  Z.of_nat (List.length (deque_append maxlen d x)) <= maxlen.
Proof.
  intros H0 Hd. unfold deque_append.
  destruct (Z.ltb_spec maxlen (Z.of_nat (List.length (d ++ [x])))) as [E|E].
  - destruct d; simpl in *; [lia|].
    rewrite length_app in *. simpl in *. lia.
  - lia.
Qed.

Lemma deque_appends_length {A : Type} (maxlen : Z) (xs : list A) :
  0 <= maxlen ->
  forall d, Z.of_nat (List.length d) <= maxlen ->
  Z.of_nat (List.length (fold_left (deque_append maxlen) xs d)) <= maxlen.
Proof.
  intros H0. induction xs as [|x xs IH]; intros d Hd; simpl; [exact Hd|].
  apply IH, deque_append_length; assumption.
Qed.

Lemma deque_append_full {A : Type} (maxlen : Z) (d : list A) (x : A) :
  Z.of_nat (List.length d) = maxlen ->
  deque_append maxlen d x = tl (d ++ [x]).
Proof.
  intros Hd. unfold deque_append.
  destruct (Z.ltb_spec maxlen (Z.of_nat (List.length (d ++ [x])))) as [E|E];
    [reflexivity|].
  rewrite length_app in E. simpl in E. lia.
Qed.

Lemma deque_append_room {A : Type} (maxlen : Z) (d : list A) (x : A) :
  Z.of_nat (List.length d) < maxlen ->
  deque_append maxlen d x = d ++ [x].
Proof.
  intros Hd. unfold deque_append.
  destruct (Z.ltb_spec maxlen (Z.of_nat (List.length (d ++ [x])))) as [E|E];
    [|reflexivity].
  rewrite length_app in E. simpl in E. lia.
Qed.


Section ContextBound.

Variable a : args.
Variable classifier : GooseWakeClassifier.
Hypothesis maxlen_nonneg : 0 <= context_chunks (context_seconds a).

Let P := context_bounded (context_chunks (context_seconds a)).

Lemma end_conversation_bounded (stamp : string) :
  preserves P (end_conversation a stamp).
Proof. unfold end_conversation. preserve; assumption. Qed.

Lemma process_active_bounded (cur : bool) (stamp : string) (ci : chunk_info) :
  preserves P (process_active a cur stamp ci).
Proof.
  unfold process_active. preserve; try assumption.
  apply end_conversation_bounded.
Qed.

Lemma process_passive_bounded (transcript : string) (ci : chunk_info) :
  preserves P (process_passive a classifier transcript ci).
Proof.
  unfold process_passive, contains_wake_word. preserve; try assumption.
  unfold P, context_bounded in *. simpl.
  apply deque_append_length; assumption.
Qed.

Lemma process_task_bounded (inp : tick_input) (cur : bool)
    (item : string * task_info) :
  preserves P (process_task a classifier inp cur item).
Proof.
  unfold process_task. destruct item as [tid info]. preserve; try assumption.
  - apply process_active_bounded.
  - apply process_passive_bounded.
Qed.

Lemma first_loop_bounded (inp : tick_input) (cur : bool)
    (items : list (string * task_info)) :
  preserves P (first_loop a classifier inp cur items).
Proof.
  induction items as [|item rest IH]; simpl; preserve; try assumption.
  apply process_task_bounded.
Qed.

Lemma periodic_bounded (inp : tick_input) : preserves P (periodic a inp).
Proof. unfold periodic. preserve; assumption. Qed.

Lemma second_loop_bounded (inp : tick_input)
    (items : list (string * task_info)) :
  preserves P (second_loop a inp items).
Proof.
  induction items as [|[tid info] rest IH]; simpl; unfold process_long;
    preserve; assumption.
Qed.

Lemma tick_bounded (inp : tick_input) :
  preserves P (tick a classifier inp).
Proof.
  unfold tick. preserve; try assumption.
  - apply first_loop_bounded.
  - apply periodic_bounded.
  - apply second_loop_bounded.
Qed.

Lemma run_bounded (inps : list tick_input) :
  preserves P (run a classifier inps).
Proof.
  induction inps as [|inp rest IH]; simpl; preserve; try assumption.
  apply tick_bounded.
Qed.

End ContextBound.

(** C6: the context buffer never holds more than
    [context_seconds / BUFFER_DURATION] records (6 with the defaults), after
    every sequence of appends and after every run of the loop, and an append
    to a full buffer drops exactly its oldest record. *)
Theorem context_buffer_never_exceeds_window
    (a : args) (classifier : GooseWakeClassifier) (now : Z) (s0 : locals)
    (Hinit : main_init a now = Returned s0)
    (inps : list tick_input) (s : locals)
    (Hrun : run a classifier inps s0 = Returned (tt, s))
    (d : list chunk_info) (x : chunk_info)
    (Hfull : Z.of_nat (List.length d) = context_chunks (context_seconds a)) :
  context_chunks (context_seconds default_args) = 6 /\
  Z.of_nat (List.length (context_buffer s))
    <= context_chunks (context_seconds a) /\
  (forall xs : list chunk_info,
      Z.of_nat (List.length
                  (fold_left (deque_append (context_chunks (context_seconds a)))
                             xs []))
      <= context_chunks (context_seconds a)) /\
  deque_append (context_chunks (context_seconds a)) d x = tl (d ++ [x]).
Proof.
  assert (H0 : 0 <= context_chunks (context_seconds a)).
  { unfold main_init, new_context_buffer in Hinit.
    destruct (Z.ltb_spec (context_chunks (context_seconds a)) 0);
      [discriminate | assumption]. }
  split; [reflexivity|]. split; [|split].
  - apply (run_bounded a classifier H0 inps s0 tt s); [|exact Hrun].
    unfold main_init, new_context_buffer in Hinit.
    destruct (context_chunks (context_seconds a) <? 0); [discriminate|].
    inversion Hinit; subst. unfold context_bounded. simpl. exact H0.
  - intros xs. apply deque_appends_length; simpl; lia.
  - apply deque_append_full, Hfull.
Qed.

Lemma context_buffer_window_witness :
  context_chunks (context_seconds default_args) = 6 /\
  Z.of_nat (List.length (context_buffer
     {| context_buffer := [heard "1" loud "good morning"];
        conversation_counter := 0;
        last_long_transcription_time := 0;
        is_active_listening := false;
        active_conversation_chunks := [];
        silence_counter := 0;
        pending_tasks := [];
        trace := [SaveAudio "audio_chunk_1.wav" loud;
                  SubmitTask "audio_chunk_1.wav" None Priority.HIGH] |}))
    <= context_chunks (context_seconds default_args) /\
  (forall xs : list chunk_info,
      Z.of_nat (List.length
                  (fold_left
                     (deque_append (context_chunks (context_seconds default_args)))
                     xs []))
      <= context_chunks (context_seconds default_args)) /\
  deque_append (context_chunks (context_seconds default_args))
    [heard "1" loud "a"; heard "2" loud "b"; heard "3" quiet "";
     heard "4" loud "c"; heard "5" loud "d"; heard "6" quiet ""]
    (heard "7" loud "e")
  = tl ([heard "1" loud "a"; heard "2" loud "b"; heard "3" quiet "";
         heard "4" loud "c"; heard "5" loud "d"; heard "6" quiet ""]
        ++ [heard "7" loud "e"]).
Proof.
  apply (context_buffer_never_exceeds_window default_args eager_classifier 0
           start eq_refl
           [make_input "1" loud 5 [("task_1", "good morning")]]).
  - reflexivity.
  - reflexivity.
Defined.

(** ** From passive to active listening *)

Lemma goose_not_in_empty : str_in "goose" (lower "") = false.
Proof. reflexivity. Qed.

(** The chunk and the dictionary entry once the transcript is filled in. *)
Lemma process_task_polled
    (a : args) (classifier : GooseWakeClassifier) (inp : tick_input)
    (cur : bool) (tid : string) (info : task_info) (s : locals)
    (transcript : string) :
  ti_processed info = false ->
  in_poll1 inp tid = Some transcript ->
  process_task a classifier inp cur (tid, info) s
  = let ci := {| ci_audio := ci_audio (ti_chunk_info info);
                 ci_file := ci_file (ti_chunk_info info);
                 ci_transcript := Some transcript |} in
    let s1 := set_pending_tasks
                (dict_set (pending_tasks s) tid
                   {| ti_chunk_info := ci;
                      ti_timestamp := ti_timestamp info;
                      ti_processed := true;
                      ti_is_long := ti_is_long info;
                      ti_long_timestamp := ti_long_timestamp info |}) s in
    match (if is_active_listening s
           then process_active a cur (in_conversation_stamp inp) ci
           else process_passive a classifier transcript ci) s1 with
    | Returned (_, s') => Returned ([tid], s')
    | Raised => Raised
    end.
Proof.
  intros Hnew Hpoll. unfold process_task. rewrite Hnew, Hpoll.
  unfold bind, modify, get, ret. simpl. reflexivity.
Qed.

(** C7: when the transcript of a pending chunk arrives while the loop is
    passive, the loop becomes active only if the transcript contains "goose"
    in any letter case and the classifier accepts it; a transcript without it
    leaves the loop passive and nothing is called, whatever the classifier
    would have done. *)
Theorem wake_needs_goose_and_classifier
    (a : args) (classifier : GooseWakeClassifier) (inp : tick_input)
    (cur : bool) (tid : string) (info : task_info) (s : locals)
    (transcript : string)
    (Hpassive : is_active_listening s = false)
    (Hnew : ti_processed info = false)
    (Hpoll : in_poll1 inp tid = Some transcript) :
  if str_in "goose" (lower transcript) then
    match classify classifier transcript with
    | Returned true =>
        match classify_with_details classifier transcript with
        | Returned _ =>
            exists s',
              process_task a classifier inp cur (tid, info) s
              = Returned ([tid], s') /\
              is_active_listening s' = true /\
              active_conversation_chunks s' = context_buffer s' /\
              trace s' = trace s ++ [Classify transcript;
                                     ClassifyWithDetails transcript]
        | Raised =>
            process_task a classifier inp cur (tid, info) s = Raised
        end
    | Returned false =>
        exists s',
          process_task a classifier inp cur (tid, info) s
          = Returned ([tid], s') /\
          is_active_listening s' = false /\
          trace s' = trace s ++ [Classify transcript]
    | Raised => process_task a classifier inp cur (tid, info) s = Raised
    end
  else
    exists s',
      process_task a classifier inp cur (tid, info) s = Returned ([tid], s') /\
      is_active_listening s' = false /\
      trace s' = trace s.
Proof.
  rewrite (process_task_polled _ _ _ _ _ _ _ _ Hnew Hpoll). cbv zeta.
  rewrite Hpassive.
  unfold process_passive, contains_wake_word.
  destruct (str_in "goose" (lower transcript)) eqn:Hg.
  - destruct transcript as [|c r]; [rewrite goose_not_in_empty in Hg; discriminate|].
    unfold truthy.
    destruct (classify classifier (String c r)) as [[|]|] eqn:Hc.
    + destruct (classify_with_details classifier (String c r)) as [q|] eqn:Hd.
      * eexists. unfold bind, modify, emit, modify, call, ret. simpl.
        try rewrite Hc; try rewrite Hd. simpl. split; [reflexivity|]. simpl.
        rewrite <- app_assoc. auto.
      * unfold bind, modify, emit, modify, call, ret. simpl.
        try rewrite Hc; try rewrite Hd. reflexivity.
    + eexists. unfold bind, modify, emit, modify, call, ret. simpl.
      try rewrite Hc. simpl. split; [reflexivity|]. simpl. auto.
    + unfold bind, modify, emit, modify, call, ret. simpl.
      try rewrite Hc. reflexivity.
  - eexists. destruct (truthy (Some transcript));
      unfold bind, modify, ret; simpl; auto.
Qed.

Lemma wake_needs_goose_and_classifier_witness :
  exists s',
    process_task default_args eager_classifier
      (make_input "2" quiet 10 [("task_1", "Hey Goose, what time is it")])
      true (waiting "1" loud) start
    = Returned (["task_1"], s') /\
    is_active_listening s' = true /\
    active_conversation_chunks s' = context_buffer s' /\
    trace s' = trace start ++ [Classify "Hey Goose, what time is it";
                               ClassifyWithDetails "Hey Goose, what time is it"].
Proof.
  exact (wake_needs_goose_and_classifier default_args eager_classifier
           (make_input "2" quiet 10 [("task_1", "Hey Goose, what time is it")])
           true "task_1" (snd (waiting "1" loud)) start
           "Hey Goose, what time is it" eq_refl eq_refl eq_refl).
Defined.

(** ** Silence while listening actively *)

Lemma end_conversation_returns (a : args) (stamp : string) (s s' : locals) :
  end_conversation a stamp s = Returned (tt, s') ->
  is_active_listening s' = false /\ silence_counter s' = 0 /\
  active_conversation_chunks s' = [] /\
  context_buffer s' = context_buffer s.
Proof.
  unfold end_conversation, bind, get. simpl.
  destruct (map ci_audio (context_buffer s)
            ++ map ci_audio (active_conversation_chunks s)) as [|x l].
  - unfold ret, modify. simpl. intros H. inversion H; subst. simpl. auto.
  - unfold call. destruct (np_concatenate (x :: l)) as [full|]; [|discriminate].
    unfold emit, modify. simpl. intros H. inversion H; subst. simpl. auto.
Qed.

Example quiet_is_silence : is_silence quiet = true.
Proof. reflexivity. Qed.

Example loud_is_not_silence : is_silence loud = false.
Proof. reflexivity. Qed.

(** C8, as stated, fails: the transcript of the silent second chunk arrives
    while the third chunk, which is speech, has just been recorded, and the
    counter is reset instead of incremented. *)
Lemma silence_flag_is_not_the_chunk_s_own :
  exists s2 s3,
    run args_10s eager_classifier wake_inputs start = Returned (tt, s2) /\
    tick args_10s eager_classifier speech_after_silence s2
    = Returned (tt, s3) /\
    is_active_listening s2 = true /\
    active_conversation_chunks s3
    = active_conversation_chunks s2 ++ [heard "2" quiet ""] /\
    is_silence quiet = true /\
    silence_counter s3 <> silence_counter s2 + 1.
Proof.
  eexists. eexists.
  split; [vm_compute; reflexivity|].
  split; [vm_compute; reflexivity|].
  repeat split; vm_compute; discriminate.
Qed.

(** C8, amended: when the transcript of a pending chunk arrives while the
    loop is active, the silence counter is incremented or reset according to
    the silence of the audio recorded in the current pass of the loop, not
    that of the chunk the transcript belongs to; the conversation ends when
    the counter so updated reaches [silence_seconds // BUFFER_DURATION]. *)
Theorem silence_counter_uses_current_chunk
    (a : args) (classifier : GooseWakeClassifier) (inp : tick_input)
    (tid : string) (info : task_info) (s : locals) (transcript : string)
    (cs : list string) (s' : locals)
    (Hactive : is_active_listening s = true)
    (Hnew : ti_processed info = false)
    (Hpoll : in_poll1 inp tid = Some transcript)
    (Hrun : process_task a classifier inp
              (is_silence (List.concat (in_blocks inp))) (tid, info) s
            = Returned (cs, s')) :
  let counted :=
    if is_silence (List.concat (in_blocks inp))
    then silence_counter s + 1 else 0 in
  if counted >=? silence_seconds a / BUFFER_DURATION
  then is_active_listening s' = false /\ silence_counter s' = 0
  else is_active_listening s' = true /\ silence_counter s' = counted /\
       active_conversation_chunks s'
       = active_conversation_chunks s
         ++ [{| ci_audio := ci_audio (ti_chunk_info info);
                ci_file := ci_file (ti_chunk_info info);
                ci_transcript := Some transcript |}].
Proof.
  rewrite (process_task_polled _ _ _ _ _ _ _ _ Hnew Hpoll) in Hrun.
  cbv zeta in Hrun. rewrite Hactive in Hrun.
  unfold process_active in Hrun.
  unfold bind at 1 2 3 in Hrun. unfold modify at 1 2 in Hrun.
  unfold get at 1 in Hrun. simpl in Hrun. cbv zeta.
  destruct ((if is_silence (List.concat (in_blocks inp))
             then silence_counter s + 1 else 0)
            >=? silence_seconds a / BUFFER_DURATION).
  - destruct (end_conversation _ _ _) as [[[] s1]|] eqn:E; [|discriminate].
    inversion Hrun; subst.
    destruct (end_conversation_returns _ _ _ _ E) as (H1 & H2 & _). auto.
  - unfold ret in Hrun. inversion Hrun; subst. simpl. auto.
Qed.

Lemma silence_counter_uses_current_chunk_witness :
  exists s',
    process_task args_10s eager_classifier speech_after_silence
      (is_silence (List.concat (in_blocks speech_after_silence)))
      (waiting "2" quiet) after_wake
    = Returned (["task_2"], s') /\
    is_active_listening s' = true /\ silence_counter s' = 0 /\
    active_conversation_chunks s'
    = active_conversation_chunks after_wake ++ [heard "2" quiet ""].
Proof.
  eexists. split; [vm_compute; reflexivity|].
  exact (silence_counter_uses_current_chunk args_10s eager_classifier
           speech_after_silence "task_2" (snd (waiting "2" quiet))
           after_wake "" ["task_2"] _ eq_refl eq_refl eq_refl eq_refl).
Defined.

(** ** The order in which records are appended *)

Lemma process_task_skip
    (a : args) (classifier : GooseWakeClassifier) (inp : tick_input)
    (cur : bool) (item : string * task_info) (s : locals) :
  ready inp item = false ->
  process_task a classifier inp cur item s = Returned ([], s).
Proof.
  destruct item as [tid info]. unfold ready, process_task. simpl.
  destruct (ti_processed info); [reflexivity|].
  destruct (in_poll1 inp tid); [discriminate | reflexivity].
Qed.

Lemma ready_polled (inp : tick_input) (tid : string) (info : task_info) :
  ready inp (tid, info) = true ->
  ti_processed info = false /\
  exists transcript, in_poll1 inp tid = Some transcript.
Proof.
  unfold ready. simpl. destruct (ti_processed info); [discriminate|].
  destruct (in_poll1 inp tid) as [t|]; [|discriminate]. eauto.
Qed.

Lemma process_passive_no_goose
    (a : args) (classifier : GooseWakeClassifier) (transcript : string)
    (ci : chunk_info) (s : locals) :
  str_in "goose" (lower transcript) = false ->
  process_passive a classifier transcript ci s
  = Returned (tt, set_context_buffer
                    (deque_append (context_chunks (context_seconds a))
                                  (context_buffer s) ci) s).
Proof.
  intros Hg. unfold process_passive, contains_wake_word. rewrite Hg.
  destruct (truthy (Some transcript)); reflexivity.
Qed.

Lemma process_active_continues
    (a : args) (cur : bool) (stamp : string) (ci : chunk_info) (s : locals) :
  (if cur then silence_counter s + 1 else 0)
  < silence_seconds a / BUFFER_DURATION ->
  process_active a cur stamp ci s
  = Returned (tt, set_silence_counter
                    (if cur then silence_counter s + 1 else 0)
                    (set_active_conversation_chunks
                       (active_conversation_chunks s ++ [ci]) s)).
Proof.
  intros Hthr. unfold process_active, bind, modify, get. simpl.
  destruct (Z.geb_spec (if cur then silence_counter s + 1 else 0)
                       (silence_seconds a / BUFFER_DURATION)); [lia|].
  reflexivity.
Qed.

Lemma first_loop_cons
    (a : args) (classifier : GooseWakeClassifier) (inp : tick_input)
    (cur : bool) (item : string * task_info)
    (rest : list (string * task_info)) (s : locals) :
  first_loop a classifier inp cur (item :: rest) s
  = match process_task a classifier inp cur item s with
    | Returned (c, s1) =>
        match first_loop a classifier inp cur rest s1 with
        | Returned (cs, s2) => Returned (c ++ cs, s2)
        | Raised => Raised
        end
    | Raised => Raised
    end.
Proof.
  simpl first_loop. unfold bind at 1.
  destruct (process_task a classifier inp cur item s) as [[c s1]|];
    [|reflexivity].
  unfold bind, ret.
  destruct (first_loop a classifier inp cur rest s1) as [[cs s2]|]; reflexivity.
Qed.

(** Whatever the listening state, the items a pass marks completed are those
    whose transcript was available, in the order of the dictionary. *)
Lemma first_loop_completed
    (a : args) (classifier : GooseWakeClassifier) (inp : tick_input)
    (cur : bool) (items : list (string * task_info)) :
  forall s cs s',
    first_loop a classifier inp cur items s = Returned (cs, s') ->
    cs = map fst (filter (ready inp) items).
Proof.
  induction items as [|[tid info] rest IH]; intros s cs s' H.
  - inversion H; reflexivity.
  - rewrite first_loop_cons in H. simpl filter.
    destruct (ready inp (tid, info)) eqn:Hr.
    + destruct (ready_polled _ _ _ Hr) as (Hnew & t & Hpoll).
      rewrite (process_task_polled _ _ _ _ _ _ _ _ Hnew Hpoll) in H.
      cbv zeta in H.
      destruct (is_active_listening s);
        [destruct (process_active _ _ _ _ _) as [[u s1]|]
        |destruct (process_passive _ _ _ _ _) as [[u s1]|]];
        try discriminate;
        (destruct (first_loop a classifier inp cur rest s1) as [[cs1 s2]|] eqn:E;
         [|discriminate]);
        inversion H; subst; simpl; f_equal; eapply IH; eauto.
    + rewrite (process_task_skip _ _ _ _ _ _ Hr) in H.
      destruct (first_loop a classifier inp cur rest s) as [[cs1 s2]|] eqn:E;
        [|discriminate].
      inversion H; subst. simpl. eapply IH; eauto.
Qed.

(** A pass of the first polling loop in which the listening state does not
    change: the records of the pending chunks whose transcript is available
    are appended in the order of their creation, to the context buffer while
    passive (no wake word heard), to the conversation while active (the
    counter of silent chunks stays below the number asked for). *)
Lemma first_loop_in_steady_mode
    (a : args) (classifier : GooseWakeClassifier) (inp : tick_input)
    (cur : bool) (items : list (string * task_info)) (s : locals)
    (Hmode :
       if is_active_listening s
       then (if cur
             then silence_counter s
                  + Z.of_nat (List.length (filter (ready inp) items))
             else 0)
            < silence_seconds a / BUFFER_DURATION
       else forall item transcript,
              In item items ->
              in_poll1 inp (fst item) = Some transcript ->
              str_in "goose" (lower transcript) = false) :
  exists s',
    first_loop a classifier inp cur items s
    = Returned (map fst (filter (ready inp) items), s') /\
    is_active_listening s' = is_active_listening s /\
    if is_active_listening s
    then active_conversation_chunks s'
         = active_conversation_chunks s
           ++ map (filled inp) (filter (ready inp) items) /\
         context_buffer s' = context_buffer s
    else context_buffer s'
         = fold_left (deque_append (context_chunks (context_seconds a)))
                     (map (filled inp) (filter (ready inp) items))
                     (context_buffer s).
Proof.
  revert s Hmode.
  induction items as [|[tid info] rest IH]; intros s Hmode.
  - exists s. simpl. destruct (is_active_listening s);
      rewrite ?app_nil_r; auto.
  - rewrite first_loop_cons. simpl filter in *.
    destruct (ready inp (tid, info)) eqn:Hr.
    + destruct (ready_polled _ _ _ Hr) as (Hnew & t & Hpoll).
      rewrite (process_task_polled _ _ _ _ _ _ _ _ Hnew Hpoll). cbv zeta.
      assert (Hfill : filled inp (tid, info)
                      = {| ci_audio := ci_audio (ti_chunk_info info);
                           ci_file := ci_file (ti_chunk_info info);
                           ci_transcript := Some t |}).
      { unfold filled. simpl. rewrite Hpoll. reflexivity. }
      rewrite <- Hfill.
      destruct (is_active_listening s) eqn:Hact.
      * simpl List.length in Hmode.
        rewrite process_active_continues by (destruct cur; simpl; lia).
        match goal with
        | |- context [first_loop _ _ _ _ rest ?s1] =>
            destruct (IH s1) as (s' & Hrun & Hact' & Hres)
        end.
        { simpl. rewrite Hact. destruct cur; lia. }
        simpl in Hact', Hres. rewrite Hact in Hres.
        exists s'. rewrite Hrun. simpl.
        split; [reflexivity|]. split; [congruence|].
        destruct Hres as [Hres1 Hres2]. rewrite Hres1, Hres2.
        rewrite <- app_assoc. auto.
      * rewrite (process_passive_no_goose _ _ _ _ _
                   (Hmode (tid, info) t (or_introl eq_refl) Hpoll)).
        match goal with
        | |- context [first_loop _ _ _ _ rest ?s1] =>
            destruct (IH s1) as (s' & Hrun & Hact' & Hres)
        end.
        { simpl. rewrite Hact. intros item t' Hin. apply Hmode. right; exact Hin. }
        simpl in Hact', Hres. rewrite Hact in Hres.
        exists s'. rewrite Hrun. simpl.
        split; [reflexivity|]. split; [congruence|]. exact Hres.
    + rewrite (process_task_skip _ _ _ _ _ _ Hr).
      destruct (IH s) as (s' & Hrun & Hact' & Hres).
      { destruct (is_active_listening s); [exact Hmode|].
        intros item t' Hin. apply Hmode. right; exact Hin. }
      exists s'. rewrite Hrun. simpl. auto.
Qed.


Lemma first_loop_in_steady_mode_example :
  exists s',
    first_loop default_args eager_classifier
      (make_input "3" quiet 15 [("task_2", "see you tomorrow")]) true
      [waiting "1" loud; waiting "2" loud; waiting "3" quiet] start
    = Returned (["task_2"], s') /\
    is_active_listening s' = false /\
    context_buffer s' = [heard "2" loud "see you tomorrow"].
Proof.
  refine (first_loop_in_steady_mode default_args eager_classifier
            (make_input "3" quiet 15 [("task_2", "see you tomorrow")]) true
            [waiting "1" loud; waiting "2" loud; waiting "3" quiet] start _).
  simpl. intros item transcript [<-|[<-|[<-|[]]]] H;
    vm_compute in H; try discriminate.
  inversion H. reflexivity.
Defined.

(** ** What the end of a conversation writes *)

Lemma end_conversation_trace (a : args) (stamp : string) (s s' : locals) :
  end_conversation a stamp s = Returned (tt, s') ->
  context_buffer s ++ active_conversation_chunks s <> [] ->
  exists full_audio,
    np_concatenate (map ci_audio (context_buffer s)
                    ++ map ci_audio (active_conversation_chunks s))
    = Returned full_audio /\
    conversation_counter s' = conversation_counter s + 1 /\
    trace s'
    = trace s
      ++ [SaveAudio
            (path_join (recordings_dir a)
                       ("conversation_" ++ stamp ++ ".wav")%string)
            full_audio;
          WriteText
            (path_join (recordings_dir a)
                       ("conversation_" ++ stamp ++ ".txt")%string)
            (String.concat " "
               (transcripts_of (context_buffer s)
                ++ transcripts_of (active_conversation_chunks s)))].
Proof.
  unfold end_conversation, bind, get. simpl. intros H Hne.
  destruct (map ci_audio (context_buffer s)
            ++ map ci_audio (active_conversation_chunks s)) as [|x l] eqn:E.
  - exfalso. apply Hne. rewrite <- map_app in E.
    destruct (context_buffer s ++ active_conversation_chunks s);
      [reflexivity | discriminate].
  - unfold call in H.
    destruct (np_concatenate (x :: l)) as [full|]; [|discriminate].
    exists full. unfold emit, modify in H. simpl in H.
    inversion H; subst. simpl. rewrite <- app_assoc. auto.
Qed.

Lemma concat_arrays_app (l1 l2 : list (option Audio)) (a1 a2 : Audio) :
  concat_arrays l1 = Returned a1 ->
  concat_arrays l2 = Returned a2 ->
  concat_arrays (l1 ++ l2) = Returned (a1 ++ a2).
Proof.
  revert a1. induction l1 as [|[x|] l1 IH]; simpl; intros a1 H1 H2.
  - inversion H1; subst. exact H2.
  - destruct (concat_arrays l1) as [r|]; [|discriminate].
    inversion H1; subst. rewrite (IH r eq_refl H2), app_assoc. reflexivity.
  - discriminate.
Qed.

(** While a conversation started from the context buffer [c] has gained the
    chunks [extra], its end saves the audio of [c] twice. *)
Lemma end_conversation_repeats_context
    (a : args) (stamp : string) (s s' : locals)
    (extra : list chunk_info) (ac ae : Audio) :
  active_conversation_chunks s = context_buffer s ++ extra ->
  context_buffer s <> [] ->
  concat_arrays (map ci_audio (context_buffer s)) = Returned ac ->
  concat_arrays (map ci_audio extra) = Returned ae ->
  end_conversation a stamp s = Returned (tt, s') ->
  In (SaveAudio (path_join (recordings_dir a)
                           ("conversation_" ++ stamp ++ ".wav")%string)
                (ac ++ ac ++ ae))
     (trace s').
Proof.
  intros Hact Hne Hc He Hrun.
  destruct (end_conversation_trace _ _ _ _ Hrun) as (full & Hfull & _ & Htr).
  { destruct (context_buffer s); [contradiction | discriminate]. }
  rewrite Htr. apply in_or_app. right. left. f_equal.
  rewrite Hact, map_app in Hfull.
  assert (Hall : concat_arrays
                   (map ci_audio (context_buffer s)
                    ++ map ci_audio (context_buffer s) ++ map ci_audio extra)
                 = Returned (ac ++ ac ++ ae)).
  { apply concat_arrays_app; [exact Hc|].
    apply concat_arrays_app; assumption. }
  unfold np_concatenate in Hfull.
  destruct (map ci_audio (context_buffer s)
            ++ map ci_audio (context_buffer s) ++ map ci_audio extra);
    [discriminate|].
  congruence.
Qed.

(** ** The second polling loop *)

(** The loop that handles the long transcriptions leaves the context buffer,
    the conversation, the listening state and the silence counter as they
    are. *)
Lemma second_loop_keeps_conversation_state
    (a : args) (inp : tick_input) (items : list (string * task_info))
    (c x : list chunk_info) (b : bool) (n : Z) :
  preserves (conversation_state_is c x b n) (second_loop a inp items).
Proof.
  induction items as [|[tid info] rest IH]; simpl; unfold process_long;
    preserve; assumption.
Qed.

(** With the default arguments every value of the counter has reached the
    number of silent chunks asked for. *)
Lemma default_threshold_always_reached (c : Z) (current_is_silence : bool) :
  0 <= c ->
  ((if current_is_silence then c + 1 else 0)
   >=? silence_seconds default_args / BUFFER_DURATION) = true.
Proof.
  intros Hc. change (silence_seconds default_args / BUFFER_DURATION) with 0.
  destruct current_is_silence; apply Z.geb_le; lia.
Qed.

(** ** Defects shown on runs of the loop *)

(** C2 at the default arguments: [silence_seconds // BUFFER_DURATION] is 0,
    and the conversation started in the third pass is ended in the fourth by
    the transcript of a chunk of speech, recorded while speech goes on: no
    silent chunk was counted. *)
Theorem default_silence_ends_conversation_at_once :
  silence_seconds default_args / BUFFER_DURATION = 0 /\
  is_silence loud = false /\
  exists s3 s4,
    run default_args eager_classifier conversation_inputs start
    = Returned (tt, s3) /\
    is_active_listening s3 = true /\
    silence_counter s3 = 0 /\
    tick default_args eager_classifier still_speaking s3
    = Returned (tt, s4) /\
    is_active_listening s4 = false /\
    active_conversation_chunks s4 = [] /\
    conversation_counter s4 = 1.
Proof.
  split; [reflexivity|]. split; [reflexivity|].
  eexists. eexists.
  split; [vm_compute; reflexivity|]. split; [reflexivity|].
  split; [reflexivity|].
  split; [vm_compute; reflexivity|].
  repeat split.
Qed.

(** C3 with one silent chunk required: the conversation saved holds the
    two chunks of the context buffer twice, audio and transcript, before the
    chunk recorded while active. *)
Theorem saved_conversation_repeats_context :
  exists s,
    run args_5s eager_classifier (conversation_inputs ++ [then_silence]) start
    = Returned (tt, s) /\
    is_active_listening s = false /\
    In (SaveAudio "recordings/conversation_4.wav"
          (quiet ++ loud ++ quiet ++ loud ++ loud))
       (trace s) /\
    In (WriteText "recordings/conversation_4.txt"
          "is this goose listening is this goose listening yes please help")
       (trace s).
Proof.
  eexists. split; [vm_compute; reflexivity|].
  repeat split; vm_compute; tauto.
Qed.

(** C4: the transcript of the long transcription submitted in the second pass
    is taken by the first polling loop of the third pass: it is appended to
    the context buffer as a record without audio, it wakes the loop and seeds
    the conversation, and no periodic text file is written. *)
Theorem periodic_transcript_treated_as_chunk :
  exists s,
    run default_args eager_classifier periodic_inputs start
    = Returned (tt, s) /\
    In (SubmitTask "recordings/periodic_2.wav" None Priority.LOW) (trace s) /\
    context_buffer s
    = [heard "1" loud "please feed the"; heard "2" loud "birds";
       periodic_record] /\
    is_active_listening s = true /\
    active_conversation_chunks s = context_buffer s /\
    forall path text, ~ In (WriteText path text) (trace s).
Proof.
  eexists. split; [vm_compute; reflexivity|].
  split; [vm_compute; tauto|].
  split; [reflexivity|]. split; [reflexivity|]. split; [reflexivity|].
  intros path text H. vm_compute in H.
  repeat (destruct H as [H|H]; [discriminate|]). exact H.
Qed.

(** After that run the record without audio is part of the conversation:
    the next transcript ends the conversation, [np.concatenate] raises on the
    record, and the loop stops. *)
Example periodic_record_stops_loop :
  run default_args eager_classifier
    (periodic_inputs ++ [make_input "4" loud 71 [("task_3", "some grain")]])
    start
  = Raised.
Proof. vm_compute. reflexivity. Qed.

(** * Further properties of the code *)

From Stdlib Require Import Permutation Sorted Lqa.

(** ** Dictionaries *)

Lemma dict_get_set_same {V : Type} (d : list (string * V)) (k : string) (v : V) :
  dict_get (dict_set d k v) k = Some v.
Proof.
  induction d as [|[k' v'] d IH]; simpl.
  - rewrite String.eqb_refl. reflexivity.
  - destruct (String.eqb k' k) eqn:E; simpl.
    + rewrite String.eqb_refl. reflexivity.
    + rewrite E. exact IH.
Qed.

Lemma dict_get_set_other {V : Type} (d : list (string * V)) (k k' : string)
    (v : V) :
  k' <> k -> dict_get (dict_set d k v) k' = dict_get d k'.
Proof.
  intros Hne. induction d as [|[k0 v0] d IH]; simpl.
  - destruct (String.eqb_spec k k'); [congruence | reflexivity].
  - destruct (String.eqb_spec k0 k) as [->|Hk]; simpl.
    + destruct (String.eqb_spec k k'); congruence.
    + destruct (String.eqb k0 k'); [reflexivity | exact IH].
Qed.

Lemma dict_get_del_same {V : Type} (d : list (string * V)) (k : string) :
  dict_get (dict_del d k) k = None.
Proof.
  induction d as [|[k' v'] d IH]; simpl; [reflexivity|].
  destruct (String.eqb k' k) eqn:E; simpl; [exact IH|].
  rewrite E. exact IH.
Qed.

Lemma dict_del_absent {V : Type} (d : list (string * V)) (k : string) :
  dict_get d k = None -> dict_del d k = d.
Proof.
  induction d as [|[k' v'] d IH]; simpl; [reflexivity|].
  destruct (String.eqb k' k) eqn:E; simpl; [discriminate|].
  intros H. rewrite (IH H). reflexivity.
Qed.

Lemma dict_del_set {V : Type} (d : list (string * V)) (k : string) (v : V) :
  dict_del (dict_set d k v) k = dict_del d k.
Proof.
  induction d as [|[k' v'] d IH]; simpl.
  - rewrite String.eqb_refl. reflexivity.
  - destruct (String.eqb k' k) eqn:E; simpl.
    + rewrite String.eqb_refl. reflexivity.
    + rewrite E. simpl. rewrite IH. reflexivity.
Qed.

(** Assigning to a key that is present keeps the keys and their order. *)
Lemma dict_set_keys_present {V : Type} (d : list (string * V)) (k : string)
    (v : V) :
  In k (keys d) -> keys (dict_set d k v) = keys d.
Proof.
  induction d as [|[k' v'] d IH]; simpl; [tauto|].
  intros [->|Hin].
  - rewrite String.eqb_refl. reflexivity.
  - destruct (String.eqb_spec k' k) as [->|Hne]; simpl; [reflexivity|].
    rewrite (IH Hin). reflexivity.
Qed.

Lemma dict_set_keys_absent {V : Type} (d : list (string * V)) (k : string)
    (v : V) :
  ~ In k (keys d) -> keys (dict_set d k v) = keys d ++ [k].
Proof.
  induction d as [|[k' v'] d IH]; simpl; [reflexivity|].
  intros Hn. destruct (String.eqb_spec k' k) as [->|Hne]; [tauto|].
  simpl. rewrite IH by tauto. reflexivity.
Qed.

(** ** The queue of the transcription service *)

Lemma pq_extract_perm (q : list TranscriptionTask) :
  forall t m rest,
    pq_extract t q = (m, rest) -> Permutation (t :: q) (m :: rest).
Proof.
  induction q as [|u q IH]; intros t m rest H; simpl in H.
  - inversion H; subst. apply Permutation_refl.
  - destruct (pq_extract u q) as [m' rest'] eqn:E.
    destruct (task_lt m' t); inversion H; subst.
    + eapply perm_trans; [apply perm_skip, (IH _ _ _ E) | apply perm_swap].
    + apply Permutation_refl.
Qed.

Lemma pq_get_perm (q : list TranscriptionTask) (m : TranscriptionTask)
    (rest : list TranscriptionTask) :
  pq_get q = Some (m, rest) -> Permutation q (m :: rest).
Proof.
  destruct q as [|t q]; simpl; [discriminate|].
  intros H. inversion H as [He]. apply pq_extract_perm, He.
Qed.

Lemma pq_get_least (q : list TranscriptionTask) (m : TranscriptionTask)
    (rest : list TranscriptionTask) :
  pq_get q = Some (m, rest) -> Forall (not_before m) rest.
Proof.
  intros H. pose proof (pq_get_perm _ _ _ H) as Hp.
  destruct q as [|t q]; simpl in H; [discriminate|].
  inversion H as [He].
  destruct (pq_extract_least _ _ _ _ He) as [_ Hmin].
  apply Forall_forall. intros x Hx. apply Hmin.
  eapply Permutation_in; [apply Permutation_sym, Hp | right; exact Hx].
Qed.

Lemma dispatch_order_perm (n : nat) :
  forall q, List.length q = n -> Permutation (dispatch_order n q) q.
Proof.
  induction n as [|n IH]; intros q Hlen.
  - destruct q; [apply perm_nil | discriminate].
  - destruct q as [|t q]; [discriminate|]. simpl.
    destruct (pq_extract t q) as [m rest] eqn:E.
    eapply perm_trans; [apply perm_skip, IH | apply Permutation_sym,
                                               (pq_extract_perm _ _ _ _ E)].
    rewrite (pq_extract_length _ _ _ _ E). simpl in Hlen. congruence.
Qed.

Lemma dispatch_order_incl (n : nat) :
  forall q x, In x (dispatch_order n q) -> In x q.
Proof.
  induction n as [|n IH]; intros q x Hx; simpl in Hx; [contradiction|].
  destruct (pq_get q) as [[m rest]|] eqn:E; [|contradiction].
  pose proof (pq_get_perm _ _ _ E) as Hp.
  eapply Permutation_in; [apply Permutation_sym, Hp|].
  destruct Hx as [<-|Hx]; [left; reflexivity | right; apply (IH _ _ Hx)].
Qed.

Lemma dispatch_order_sorted (n : nat) :
  forall q, StronglySorted not_before (dispatch_order n q).
Proof.
  induction n as [|n IH]; intros q; simpl; [constructor|].
  destruct (pq_get q) as [[m rest]|] eqn:E; [|constructor].
  constructor; [apply IH|].
  pose proof (pq_get_least _ _ _ E) as Hleast.
  apply Forall_forall. intros x Hx.
  eapply Forall_forall; [exact Hleast | apply (dispatch_order_incl _ _ _ Hx)].
Qed.

(** X1: the worker loop takes every queued task exactly once, and in the
    order of the queue: no task is taken before a task that precedes it, so
    no LOW task is taken before a queued HIGH task and tasks of one priority
    leave in the order of their time stamps. *)
Theorem worker_takes_tasks_in_queue_order
    (q l1 : list TranscriptionTask) (a : TranscriptionTask)
    (l2 : list TranscriptionTask) (b : TranscriptionTask)
    (l3 : list TranscriptionTask)
    (Heq : dispatch_order (List.length q) q = l1 ++ a :: l2 ++ b :: l3) :
  Permutation (dispatch_order (List.length q) q) q /\
  StronglySorted not_before (dispatch_order (List.length q) q) /\
  priority a <= priority b /\
  (priority a = priority b -> timestamp a <= timestamp b).
Proof.
  split; [apply dispatch_order_perm; reflexivity|].
  split; [apply dispatch_order_sorted|].
  pose proof (dispatch_order_sorted (List.length q) q) as Hs.
  rewrite Heq in Hs.
  assert (Hab : not_before a b).
  { clear Heq. induction l1 as [|x l1 IH]; simpl in Hs.
    - inversion Hs as [|? ? _ Hall]; subst.
      eapply Forall_forall; [exact Hall|].
      apply in_or_app. right. left. reflexivity.
    - inversion Hs; subst. auto. }
  unfold not_before, task_lt in Hab.
  destruct (Z.eqb_spec (priority b) (priority a)) as [Hp|Hp]; simpl in Hab;
    apply Z.ltb_ge in Hab; lia.
Qed.

Lemma worker_takes_tasks_in_queue_order_witness :
  Permutation
    (dispatch_order 3 [task_low_early; task_high_late; task_high_early])
    [task_low_early; task_high_late; task_high_early] /\
  StronglySorted not_before
    (dispatch_order 3 [task_low_early; task_high_late; task_high_early]) /\
  priority task_high_early <= priority task_low_early /\
  (priority task_high_early = priority task_low_early ->
   timestamp task_high_early <= timestamp task_low_early).
Proof.
  exact (worker_takes_tasks_in_queue_order
           [task_low_early; task_high_late; task_high_early]
           [] task_high_early [task_high_late] task_low_early [] eq_refl).
Defined.

(** A pass of the worker loop removes the least task from the queue and
    stores a running future under its id. *)
Lemma worker_step_takes_least (svc : TranscriptionService)
    (task : TranscriptionTask) (rest : list TranscriptionTask) :
  pq_get (task_queue svc) = Some (task, rest) ->
  task_queue (worker_step svc) = rest /\
  dict_get (futures (worker_step svc)) (task_id task)
  = Some (Running (audio_file task) (language task)).
Proof.
  intros H. unfold worker_step. rewrite H. simpl.
  split; [reflexivity | apply dict_get_set_same].
Qed.

(** ** Results of the transcription service *)

(** X2: a finished transcription is handed out once: [get_result] returns
    its text and forgets the future, and the next call for the same id
    answers [None] and changes nothing. *)
Theorem get_result_hands_out_once
    (svc : TranscriptionService) (id text : string)
    (Hres : dict_get (results svc) id = None)
    (Hfut : dict_get (futures svc) id = Some (Finished text)) :
  fst (get_result svc id) = Some text /\
  task_queue (snd (get_result svc id)) = task_queue svc /\
  dict_get (futures (snd (get_result svc id))) id = None /\
  get_result (snd (get_result svc id)) id = (None, snd (get_result svc id)).
Proof.
  assert (E : get_result svc id
              = (Some text,
                 {| task_queue := task_queue svc;
                    futures := dict_del (futures svc) id;
                    results := results svc |})).
  { unfold get_result. rewrite Hres, Hfut. reflexivity. }
  rewrite E. cbn [fst snd task_queue futures].
  repeat split.
  - apply dict_get_del_same.
  - unfold get_result. cbn [task_queue futures results].
    rewrite Hres, dict_get_del_same. reflexivity.
Qed.

(** X3: [get_result] answers [None] exactly when the id has no stored result
    and its future is unknown or still running, and then the service is left
    as it was: an id that was never dispatched, or was already handed out,
    cannot be told from a transcription in progress. *)
Theorem get_result_none_iff (svc : TranscriptionService) (id : string) :
  (fst (get_result svc id) = None <->
   dict_get (results svc) id = None /\
   (dict_get (futures svc) id = None \/
    exists file lang, dict_get (futures svc) id = Some (Running file lang))) /\
  (fst (get_result svc id) = None -> snd (get_result svc id) = svc).
Proof.
  unfold get_result.
  destruct (dict_get (results svc) id) as [r|]; simpl.
  - split; [split; [discriminate | intros [H _]; discriminate] | discriminate].
  - destruct (dict_get (futures svc) id) as [[file lang|text|]|]; simpl.
    + split; [split; eauto | reflexivity].
    + split; [split; [discriminate|] | discriminate].
      intros [_ [H|(f & l & H)]]; discriminate.
    + split; [split; [discriminate|] | discriminate].
      intros [_ [H|(f & l & H)]]; discriminate.
    + split; [split; auto | reflexivity].
Qed.

(** X4: a task submitted to an idle service, taken by the worker loop and
    completed by the pool is answered by [get_result] with what
    [_transcribe_task] returns for its file and language, and the service is
    then as it was before the submission. *)
Theorem service_round_trip
    (model : string -> option string -> outcome string)
    (svc : TranscriptionService) (now : Z) (id file : string)
    (lang : option string) (prio : Z)
    (Hidle : task_queue svc = [])
    (Hfut : dict_get (futures svc) id = None)
    (Hres : dict_get (results svc) id = None) :
  fst (service_submit svc now id file lang prio) = id /\
  get_result
    (finish model
       (worker_step (snd (service_submit svc now id file lang prio))) id) id
  = (Some (_transcribe_task model file lang), svc).
Proof.
  destruct svc as [q fs rs]. simpl in *. subst q.
  split; [reflexivity|].
  unfold service_submit, submit_task, pq_put, worker_step.
  cbn [app task_queue futures results snd pq_get pq_extract task_id
       audio_file language].
  unfold finish. cbn [task_queue futures results].
  rewrite dict_get_set_same.
  unfold get_result. cbn [task_queue futures results].
  rewrite Hres, dict_get_set_same.
  rewrite !dict_del_set, (dict_del_absent _ _ Hfut). reflexivity.
Qed.

Lemma get_result_hands_out_once_witness :
  fst (get_result
         {| task_queue := []; futures := [("task_1", Finished "good morning")];
            results := [] |} "task_1")
  = Some "good morning" /\
  task_queue
    (snd (get_result
            {| task_queue := [];
               futures := [("task_1", Finished "good morning")];
               results := [] |} "task_1")) = [] /\
  dict_get
    (futures
       (snd (get_result
               {| task_queue := [];
                  futures := [("task_1", Finished "good morning")];
                  results := [] |} "task_1"))) "task_1" = None /\
  get_result
    (snd (get_result
            {| task_queue := [];
               futures := [("task_1", Finished "good morning")];
               results := [] |} "task_1")) "task_1"
  = (None,
     snd (get_result
            {| task_queue := [];
               futures := [("task_1", Finished "good morning")];
               results := [] |} "task_1")).
Proof.
  exact (get_result_hands_out_once
           {| task_queue := [];
              futures := [("task_1", Finished "good morning")];
              results := [] |} "task_1" "good morning" eq_refl eq_refl).
Defined.

Lemma service_round_trip_witness :
  fst (service_submit new_service 7 "task_1" "audio_chunk_1.wav" (Some "en")
         Priority.HIGH) = "task_1" /\
  get_result
    (finish padded_model
       (worker_step
          (snd (service_submit new_service 7 "task_1" "audio_chunk_1.wav"
                  (Some "en") Priority.HIGH))) "task_1") "task_1"
  = (Some (_transcribe_task padded_model "audio_chunk_1.wav" (Some "en")),
     new_service).
Proof.
  exact (service_round_trip padded_model new_service 7 "task_1"
           "audio_chunk_1.wav" (Some "en") Priority.HIGH
           eq_refl eq_refl eq_refl).
Defined.

(** ** The context buffer as a sliding window *)

Lemma skipn_succ_tl {A : Type} (k : nat) (l : list A) :
  skipn (S k) l = tl (skipn k l).
Proof.
  revert l. induction k as [|k IH]; intros l.
  - destruct l; reflexivity.
  - destruct l as [|x l]; [reflexivity|]. simpl skipn at 2. rewrite <- IH.
    reflexivity.
Qed.

Lemma deque_append_lastn {A : Type} (n : nat) (l : list A) (x : A) :
  deque_append (Z.of_nat n) (lastn n l) x = lastn n (l ++ [x]).
Proof.
  unfold lastn. rewrite length_app. simpl List.length.
  destruct (Nat.le_gt_cases n (List.length l)) as [Hge|Hlt].
  - rewrite deque_append_full
      by (rewrite length_skipn; lia).
    replace (List.length l + 1 - n)%nat with (S (List.length l - n)) by lia.
    rewrite skipn_succ_tl, skipn_app.
    replace (List.length l - n - List.length l)%nat with O by lia.
    reflexivity.
  - replace (List.length l - n)%nat with O by lia.
    replace (List.length l + 1 - n)%nat with O by lia.
    simpl skipn. apply deque_append_room. lia.
Qed.

Lemma deque_appends_lastn {A : Type} (n : nat) (xs : list A) :
  forall l,
    fold_left (deque_append (Z.of_nat n)) xs (lastn n l) = lastn n (l ++ xs).
Proof.
  induction xs as [|x xs IH]; intros l; simpl.
  - rewrite app_nil_r. reflexivity.
  - rewrite deque_append_lastn, IH, <- app_assoc. reflexivity.
Qed.

(** X5: after any sequence of appends the context buffer holds exactly the
    most recent [maxlen] records of those it held and those appended, in the
    order of their arrival. *)
Theorem context_buffer_is_sliding_window
    (maxlen : Z) (d xs : list chunk_info)
    (Hmax : 0 <= maxlen)
    (Hlen : Z.of_nat (List.length d) <= maxlen) :
  fold_left (deque_append maxlen) xs d = lastn (Z.to_nat maxlen) (d ++ xs).
Proof.
  rewrite <- (Z2Nat.id maxlen Hmax) at 1.
  rewrite <- deque_appends_lastn. f_equal.
  unfold lastn. replace (List.length d - Z.to_nat maxlen)%nat with O by lia.
  reflexivity.
Qed.

Lemma context_buffer_is_sliding_window_witness :
  fold_left (deque_append 2)
    [heard "2" loud "b"; heard "3" quiet ""; heard "4" loud "c"]
    [heard "1" loud "a"]
  = lastn (Z.to_nat 2)
      ([heard "1" loud "a"]
       ++ [heard "2" loud "b"; heard "3" quiet ""; heard "4" loud "c"]).
Proof.
  apply (context_buffer_is_sliding_window 2 [heard "1" loud "a"]
           [heard "2" loud "b"; heard "3" quiet ""; heard "4" loud "c"]);
    simpl; lia.
Defined.

(** ** Silence *)

Lemma inject_Z_succ (n : nat) :
  (inject_Z (Z.of_nat (S n)) == inject_Z (Z.of_nat n) + 1)%Q.
Proof.
  rewrite Nat2Z.inj_succ. unfold Z.succ. rewrite inject_Z_plus. reflexivity.
Qed.

Lemma sum_abs_below (t : Q) (a : Audio) :
  Forall (fun x => (Qabs x < t)%Q) a -> a <> [] ->
  (sum_abs a < inject_Z (Z.of_nat (List.length a)) * t)%Q.
Proof.
  intros H. induction H as [|x l Hx Hl IH]; intros Hne; [congruence|].
  change (sum_abs (x :: l)) with (Qabs x + sum_abs l)%Q.
  change (List.length (x :: l)) with (S (List.length l)).
  rewrite inject_Z_succ.
  setoid_replace ((inject_Z (Z.of_nat (List.length l)) + 1) * t)%Q
    with (inject_Z (Z.of_nat (List.length l)) * t + t)%Q by ring.
  destruct l as [|y l'].
  - unfold sum_abs. simpl. change (inject_Z 0) with 0%Q. lra.
  - assert (IH' := IH ltac:(discriminate)).
    set (p := (inject_Z (Z.of_nat (List.length (y :: l'))) * t)%Q) in *.
    set (q := sum_abs (y :: l')) in *. lra.
Qed.

Lemma sum_abs_above (t : Q) (a : Audio) :
  Forall (fun x => (t <= Qabs x)%Q) a ->
  (inject_Z (Z.of_nat (List.length a)) * t <= sum_abs a)%Q.
Proof.
  intros H. induction H as [|x l Hx Hl IH].
  - unfold sum_abs. simpl. change (inject_Z 0) with 0%Q. lra.
  - change (sum_abs (x :: l)) with (Qabs x + sum_abs l)%Q.
    change (List.length (x :: l)) with (S (List.length l)).
    rewrite inject_Z_succ.
    setoid_replace ((inject_Z (Z.of_nat (List.length l)) + 1) * t)%Q
      with (inject_Z (Z.of_nat (List.length l)) * t + t)%Q by ring.
    set (p := (inject_Z (Z.of_nat (List.length l)) * t)%Q) in *.
    set (q := sum_abs l) in *. lra.
Qed.

Lemma samples_count_positive (a : Audio) :
  a <> [] -> (0 < inject_Z (Z.of_nat (List.length a)))%Q.
Proof.
  destruct a; [congruence|]. intros _.
  change 0%Q with (inject_Z 0). rewrite <- Zlt_Qlt. simpl. lia.
Qed.

(** In exact arithmetic, a chunk that has samples, all of them below the
    threshold in absolute value, is silence. *)
Theorem samples_below_threshold_are_silence (audio_data : Audio)
    (Hne : audio_data <> [])
    (Hall : Forall (fun x => (Qabs x < SILENCE_THRESHOLD)%Q) audio_data) :
  is_silence audio_data = true.
Proof.
  destruct audio_data as [|x l]; [congruence|].
  unfold is_silence, Qltb. apply negb_true_iff.
  destruct (Qle_bool SILENCE_THRESHOLD (mean_abs (x :: l))) eqn:E;
    [|reflexivity].
  apply Qle_bool_iff in E. exfalso. apply (Qle_not_lt _ _ E).
  unfold mean_abs.
  apply Qlt_shift_div_r; [apply samples_count_positive; discriminate|].
  rewrite Qmult_comm. apply (sum_abs_below _ _ Hall). discriminate.
Qed.

Lemma samples_below_threshold_are_silence_witness : is_silence quiet = true.
Proof.
  apply (samples_below_threshold_are_silence quiet); [discriminate|].
  repeat constructor.
Defined.

(** In exact arithmetic, a chunk whose samples all reach the threshold in
    absolute value is not silence, and neither is a chunk without samples. *)
Theorem samples_at_threshold_are_not_silence (audio_data : Audio)
    (Hall : Forall (fun x => (SILENCE_THRESHOLD <= Qabs x)%Q) audio_data) :
  is_silence audio_data = false.
Proof.
  destruct audio_data as [|x l]; [reflexivity|].
  unfold is_silence, Qltb. apply negb_false_iff. apply Qle_bool_iff.
  unfold mean_abs.
  apply Qle_shift_div_l; [apply samples_count_positive; discriminate|].
  rewrite Qmult_comm. apply (sum_abs_above _ _ Hall).
Qed.

Lemma samples_at_threshold_are_not_silence_witness : is_silence loud = false.
Proof.
  apply (samples_at_threshold_are_not_silence loud).
  repeat constructor; discriminate.
Defined.

(** X6: silence does not depend on the sign of the samples: inverting the
    signal gives the same answer. *)
Theorem silence_ignores_polarity (audio_data : Audio) :
  is_silence (map Qopp audio_data) = is_silence audio_data.
Proof.
  assert (H : map Qabs (map Qopp audio_data) = map Qabs audio_data).
  { rewrite map_map. apply map_ext. intros [n d]. unfold Qabs, Qopp. simpl.
    rewrite Z.abs_opp. reflexivity. }
  destruct audio_data as [|x l]; [reflexivity|].
  unfold is_silence, mean_abs.
  change (map Qopp (x :: l)) with (Qopp x :: map Qopp l) at 1.
  cbv iota. fold (map Qopp (x :: l)). rewrite H, length_map. reflexivity.
Qed.

(** ** The wake word in any letter case *)

Lemma prefix_app (n b : string) : prefix n (n ++ b) = true.
Proof.
  induction n as [|c n IH]; simpl; [destruct b; reflexivity|].
  destruct (ascii_dec c c); [exact IH | congruence].
Qed.

Lemma prefix_split (n h : string) :
  prefix n h = true -> exists b, h = (n ++ b)%string.
Proof.
  revert h. induction n as [|c n IH]; intros h H.
  - exists h. reflexivity.
  - destruct h as [|d h]; simpl in H; [discriminate|].
    destruct (ascii_dec c d) as [->|]; [|discriminate].
    destruct (IH _ H) as [b ->]. exists b. reflexivity.
Qed.

Lemma str_in_tail (n : string) (c : ascii) (h : string) :
  str_in n h = true -> str_in n (String c h) = true.
Proof.
  intros H. change (str_in n (String c h))
    with (prefix n (String c h) || str_in n h).
  rewrite H. apply orb_true_r.
Qed.

Lemma str_in_eq (n h : string) :
  str_in n h = prefix n h || match h with
                             | EmptyString => false
                             | String _ r => str_in n r
                             end.
Proof. destruct h; reflexivity. Qed.

(** [str_in] is the test for a substring. *)
Lemma str_in_iff (n h : string) :
  str_in n h = true <-> exists a b, h = (a ++ n ++ b)%string.
Proof.
  split.
  - induction h as [|c h IH]; intros H; rewrite str_in_eq in H;
      apply orb_true_iff in H; destruct H as [H|H]; try discriminate.
    + destruct (prefix_split _ _ H) as [b Hb]. exists "", b. exact Hb.
    + destruct (prefix_split _ _ H) as [b Hb]. exists "", b. exact Hb.
    + destruct (IH H) as (a & b & ->). exists (String c a), b. reflexivity.
  - intros (a & b & ->). induction a as [|c a IH].
    + rewrite str_in_eq. change ("" ++ n ++ b)%string with (n ++ b)%string.
      rewrite prefix_app. reflexivity.
    + change (String c a ++ n ++ b)%string with (String c (a ++ n ++ b)).
      apply str_in_tail, IH.
Qed.

Lemma lower_app (a b : string) :
  lower (a ++ b) = (lower a ++ lower b)%string.
Proof. induction a as [|c a IH]; simpl; [reflexivity | rewrite IH; reflexivity]. Qed.

Lemma lower_split (x y : string) :
  forall t, lower t = (x ++ y)%string ->
            exists t1 t2, t = (t1 ++ t2)%string /\ lower t1 = x /\ lower t2 = y.
Proof.
  induction x as [|c x IH]; intros t H.
  - exists "", t. auto.
  - destruct t as [|d t]; simpl in H; [discriminate|].
    inversion H as [[Hc Ht]]. destruct (IH _ Ht) as (t1 & t2 & -> & H1 & H2).
    exists (String d t1), t2. simpl. rewrite H1. auto.
Qed.

Lemma mentions_goose_iff (text : string) :
  str_in "goose" (lower text) = true <-> mentions_goose text.
Proof.
  unfold mentions_goose. rewrite str_in_iff. split.
  - intros (a' & b' & H).
    destruct (lower_split _ _ _ H) as (a & r & -> & Ha & Hr).
    destruct (lower_split _ _ _ Hr) as (w & b & -> & Hw & Hb).
    exists a, w, b. auto.
  - intros (a & w & b & -> & Hw).
    exists (lower a), (lower b). rewrite !lower_app, Hw. reflexivity.
Qed.

(** X7: [contains_wake_word] with a classifier asks the classifier exactly
    when the text contains "goose" in some letter case; it then passes the
    text as it was heard, once, and answers what the classifier answers (or
    raises what it raises).  Otherwise it answers [False] and calls nothing. *)
Theorem wake_word_in_any_letter_case
    (text : string) (c : GooseWakeClassifier) (s : locals) :
  (mentions_goose text ->
   contains_wake_word text (Some c) s
   = match classify c text with
     | Returned verdict => Returned (verdict, add_event (Classify text) s)
     | Raised => Raised
     end) /\
  (~ mentions_goose text ->
   contains_wake_word text (Some c) s = Returned (false, s)).
Proof.
  unfold contains_wake_word. split; intros H.
  - apply mentions_goose_iff in H. rewrite H.
    unfold bind, emit, modify, call. destruct (classify c text); reflexivity.
  - destruct (str_in "goose" (lower text)) eqn:E; [|reflexivity].
    exfalso. apply H, mentions_goose_iff, E.
Qed.

Lemma wake_word_in_any_letter_case_witness :
  contains_wake_word "Hey GoOsE, wake up" (Some eager_classifier) start
  = Returned (true, add_event (Classify "Hey GoOsE, wake up") start) /\
  contains_wake_word "Hey moose" (Some eager_classifier) start
  = Returned (false, start).
Proof.
  split.
  - apply (proj1 (wake_word_in_any_letter_case "Hey GoOsE, wake up"
                    eager_classifier start)).
    exists "Hey ", "GoOsE", ", wake up". split; reflexivity.
  - apply (proj2 (wake_word_in_any_letter_case "Hey moose"
                    eager_classifier start)).
    intros H. apply mentions_goose_iff in H. discriminate.
Defined.

(** ** Empty transcriptions *)

Lemma lstrip_empty_iff (s : string) : lstrip s = "" <-> all_space s = true.
Proof.
  induction s as [|c r IH]; simpl; [tauto|].
  destruct (isspace c); simpl; [exact IH|].
  split; discriminate.
Qed.

Lemma rstrip_empty_iff (s : string) : rstrip s = "" <-> all_space s = true.
Proof.
  induction s as [|c r IH]; simpl; [tauto|].
  destruct (rstrip r) as [|d r'] eqn:E.
  - destruct (isspace c); simpl; [|split; discriminate].
    split; intros _; [apply IH|]; reflexivity.
  - split; [discriminate|]. intros H. apply andb_true_iff in H.
    destruct H as [_ H]. apply IH in H. discriminate.
Qed.

Lemma lstrip_fixed (s : string) :
  not_space (first_char s) = true -> lstrip s = s.
Proof.
  destruct s as [|c r]; simpl; [reflexivity|].
  destruct (isspace c); [discriminate | reflexivity].
Qed.

Lemma rstrip_fixed (s : string) :
  not_space (last_char s) = true -> rstrip s = s.
Proof.
  induction s as [|c r IH]; simpl; [reflexivity|].
  destruct r as [|d r'].
  - simpl. destruct (isspace c); [discriminate | reflexivity].
  - intros H. rewrite (IH H). reflexivity.
Qed.

Lemma strip_empty_iff (s : string) : strip s = "" <-> all_space s = true.
Proof.
  unfold strip. rewrite rstrip_empty_iff. split; intros H.
  - apply lstrip_empty_iff.
    destruct (lstrip_spec s) as (l & _ & _ & Hf).
    destruct (lstrip s) as [|c r]; [reflexivity|].
    simpl in H, Hf. destruct (isspace c); discriminate.
  - apply lstrip_empty_iff in H. rewrite H. reflexivity.
Qed.

Lemma strip_idempotent (s : string) : strip (strip s) = strip s.
Proof.
  destruct (strip_trimmed s) as (l & r & _ & _ & _ & Hf & Hl).
  unfold strip at 1. rewrite (lstrip_fixed _ Hf). apply rstrip_fixed, Hl.
Qed.

(** X8: the worker's transcription function returns the empty string exactly
    when the model raises or its text is white space only, and stripping its
    result again changes nothing. *)
Theorem transcribe_task_empty_iff
    (model : string -> option string -> outcome string)
    (audio_file : string) (language : option string) :
  (_transcribe_task model audio_file language = "" <->
   model audio_file (if truthy language then language else None) = Raised \/
   exists text,
     model audio_file (if truthy language then language else None)
     = Returned text /\ all_space text = true) /\
  strip (_transcribe_task model audio_file language)
  = _transcribe_task model audio_file language.
Proof.
  unfold _transcribe_task.
  destruct (model audio_file (if truthy language then language else None))
    as [text|].
  - split; [|apply strip_idempotent]. rewrite strip_empty_iff. split.
    + intros H. right. exists text. auto.
    + intros [H|(t & Ht & Hs)]; [discriminate|]. inversion Ht; subst. exact Hs.
  - split; [|reflexivity]. split; auto.
Qed.

(** ** The stages of a pass *)

Lemma bind_returns {A B : Type} (m : M A) (k : A -> M B) (s : locals)
    (b : B) (s' : locals) :
  bind m k s = Returned (b, s') ->
  exists a s1, m s = Returned (a, s1) /\ k a s1 = Returned (b, s').
Proof.
  unfold bind. destruct (m s) as [[a s1]|]; [|discriminate]. eauto.
Qed.

(** A pass that has audio runs the first polling loop on the registered
    chunk, deletes the completed tasks, and runs the periodic transcription
    and the second polling loop. *)
Lemma tick_stages
    (a : args) (classifier : GooseWakeClassifier) (inp : tick_input)
    (s s' : locals) :
  in_blocks inp <> [] ->
  tick a classifier inp s = Returned (tt, s') ->
  exists cs s1 s2,
    first_loop a classifier inp (is_silence (List.concat (in_blocks inp)))
      (pending_tasks (registered a inp s)) (registered a inp s)
    = Returned (cs, s1) /\
    periodic a inp (set_pending_tasks (dict_del_all (pending_tasks s1) cs) s1)
    = Returned (tt, s2) /\
    second_loop a inp (pending_tasks s2) s2 = Returned (tt, s').
Proof.
  intros Hne H. unfold tick in H.
  destruct (in_blocks inp) as [|b bs] eqn:Hb; [congruence|].
  apply bind_returns in H. destruct H as ([] & s01 & H01 & H).
  apply bind_returns in H. destruct H as ([] & s02 & H02 & H).
  apply bind_returns in H. destruct H as ([] & s03 & H03 & H).
  apply bind_returns in H. destruct H as (s04 & s04' & H04 & H).
  apply bind_returns in H. destruct H as (cs & s1 & H1 & H).
  apply bind_returns in H. destruct H as ([] & s11 & H11 & H).
  apply bind_returns in H. destruct H as ([] & s2 & H2 & H).
  apply bind_returns in H. destruct H as (s2' & s2'' & H2' & H).
  inversion H01; subst s01. inversion H02; subst s02.
  inversion H03; subst s03. inversion H04; subst s04 s04'.
  inversion H11; subst s11. inversion H2'; subst s2' s2''.
  exists cs, s1, s2. unfold registered. rewrite Hb. auto.
Qed.

(** ** The listening state between passes *)

Lemma process_active_invariant
    (a : args) (cur : bool) (stamp : string) (ci : chunk_info)
    (s s' : locals) :
  listening_invariant s -> is_active_listening s = true ->
  process_active a cur stamp ci s = Returned (tt, s') ->
  listening_invariant s'.
Proof.
  unfold listening_invariant. intros (Hc & Hn & Hinv) Hact H.
  rewrite Hact in Hinv. destruct Hinv as [extra Hextra].
  unfold process_active in H.
  unfold bind at 1 2 3 in H. unfold modify at 1 2 in H.
  unfold get at 1 in H. simpl in H.
  destruct ((if cur then silence_counter s + 1 else 0)
            >=? silence_seconds a / BUFFER_DURATION).
  - pose proof H as H'.
    apply end_conversation_returns in H. destruct H as (H1 & H2 & H3 & _).
    rewrite H1, H2, H3. repeat split; try lia.
    unfold end_conversation, bind, get in H'. simpl in H'.
    destruct (map ci_audio (context_buffer s)
              ++ map ci_audio (active_conversation_chunks s ++ [ci])).
    + unfold ret, modify in H'. inversion H'; subst. simpl. exact Hn.
    + unfold call in H'.
      destruct (np_concatenate (o :: l)); [|discriminate].
      unfold emit, modify in H'. inversion H'; subst. simpl. lia.
  - unfold ret in H. inversion H; subst. simpl. rewrite Hact.
    repeat split; try (destruct cur; lia).
    exists (extra ++ [ci]). rewrite Hextra, app_assoc. reflexivity.
Qed.

Lemma process_passive_invariant
    (a : args) (classifier : GooseWakeClassifier) (transcript : string)
    (ci : chunk_info) (s s' : locals) :
  listening_invariant s -> is_active_listening s = false ->
  process_passive a classifier transcript ci s = Returned (tt, s') ->
  listening_invariant s'.
Proof.
  unfold listening_invariant. intros (Hc & Hn & Hinv) Hact H.
  rewrite Hact in Hinv. destruct Hinv as [Hnil Hzero].
  unfold process_passive, contains_wake_word in H.
  unfold bind at 1 in H. unfold modify at 1 in H.
  destruct (truthy (Some transcript)).
  - destruct (str_in "goose" (lower transcript)).
    + unfold bind, emit, modify, call, ret in H. simpl in H.
      destruct (classify classifier transcript) as [[|]|]; try discriminate.
      * destruct (classify_with_details classifier transcript);
          [|discriminate].
        inversion H; subst. simpl. repeat split; try lia.
        exists []. rewrite app_nil_r. reflexivity.
      * inversion H; subst. simpl. rewrite Hact. auto.
    + unfold bind, ret in H. inversion H; subst. simpl. rewrite Hact. auto.
  - unfold ret in H. inversion H; subst. simpl. rewrite Hact. auto.
Qed.

Lemma process_task_invariant
    (a : args) (classifier : GooseWakeClassifier) (inp : tick_input)
    (cur : bool) (item : string * task_info) :
  preserves listening_invariant (process_task a classifier inp cur item).
Proof.
  intros s c s' Hinv H. destruct item as [tid info].
  destruct (ready inp (tid, info)) eqn:Hr.
  - destruct (ready_polled _ _ _ Hr) as (Hnew & t & Hpoll).
    rewrite (process_task_polled _ _ _ _ _ _ _ _ Hnew Hpoll) in H.
    cbv zeta in H.
    destruct (is_active_listening s) eqn:Hact.
    + destruct (process_active _ _ _ _ _) as [[[] s1]|] eqn:E; [|discriminate].
      inversion H; subst.
      exact (process_active_invariant _ _ _ _ (set_pending_tasks _ s) _
               Hinv Hact E).
    + destruct (process_passive _ _ _ _ _) as [[[] s1]|] eqn:E; [|discriminate].
      inversion H; subst.
      exact (process_passive_invariant _ _ _ _ (set_pending_tasks _ s) _
               Hinv Hact E).
  - rewrite (process_task_skip _ _ _ _ _ _ Hr) in H. inversion H; subst.
    exact Hinv.
Qed.

Lemma first_loop_invariant
    (a : args) (classifier : GooseWakeClassifier) (inp : tick_input)
    (cur : bool) (items : list (string * task_info)) :
  preserves listening_invariant (first_loop a classifier inp cur items).
Proof.
  induction items as [|item rest IH]; simpl; preserve; try assumption.
  apply process_task_invariant.
Qed.

Lemma periodic_invariant (a : args) (inp : tick_input) :
  preserves listening_invariant (periodic a inp).
Proof. unfold periodic. preserve; assumption. Qed.

Lemma second_loop_invariant
    (a : args) (inp : tick_input) (items : list (string * task_info)) :
  preserves listening_invariant (second_loop a inp items).
Proof.
  induction items as [|[tid info] rest IH]; simpl; unfold process_long;
    preserve; assumption.
Qed.

Lemma tick_invariant
    (a : args) (classifier : GooseWakeClassifier) (inp : tick_input) :
  preserves listening_invariant (tick a classifier inp).
Proof.
  unfold tick. preserve; try assumption.
  - apply first_loop_invariant.
  - apply periodic_invariant.
  - apply second_loop_invariant.
Qed.

Lemma run_invariant
    (a : args) (classifier : GooseWakeClassifier) (inps : list tick_input) :
  preserves listening_invariant (run a classifier inps).
Proof.
  induction inps as [|inp rest IH]; simpl; preserve; try assumption.
  apply tick_invariant.
Qed.

(** X9: after every run of the loop from its initial state the silence
    counter and the conversation counter are not negative; while the loop is
    passive the conversation is empty and no silence is counted; while it is
    active the conversation begins with the records of the context buffer. *)
Theorem listening_state_between_passes
    (a : args) (classifier : GooseWakeClassifier) (now : Z) (s0 : locals)
    (inps : list tick_input) (s : locals)
    (Hinit : main_init a now = Returned s0)
    (Hrun : run a classifier inps s0 = Returned (tt, s)) :
  listening_invariant s.
Proof.
  apply (run_invariant a classifier inps s0 tt s); [|exact Hrun].
  unfold main_init in Hinit.
  destruct (new_context_buffer chunk_info (context_chunks (context_seconds a)));
    [|discriminate].
  inversion Hinit; subst. unfold listening_invariant. simpl.
  repeat split; lia.
Qed.

Lemma listening_state_between_passes_witness :
  listening_invariant after_wake.
Proof.
  apply (listening_state_between_passes args_10s eager_classifier 0 start
           wake_inputs after_wake); reflexivity.
Defined.

(** ** The periodic long transcription *)

Lemma low_submissions_app (tr1 tr2 : list event) :
  low_submissions (tr1 ++ tr2) = low_submissions tr1 ++ low_submissions tr2.
Proof.
  induction tr1 as [|e tr1 IH]; simpl; [reflexivity|].
  destruct e; try exact IH.
  destruct (prio =? Priority.LOW); simpl; rewrite IH; reflexivity.
Qed.

Lemma low_submissions_add (e : event) (s : locals) (l : list string) :
  low_submissions [e] = [] ->
  low_submissions (trace s) = l ->
  low_submissions (trace (add_event e s)) = l.
Proof.
  intros He Hs. simpl. rewrite low_submissions_app, He, Hs, app_nil_r.
  reflexivity.
Qed.

Section PassKeeps.

Variable a : args.
Variable classifier : GooseWakeClassifier.
Variable inp : tick_input.
Variable l : list string.
Variable t : Z.

(** The long transcriptions submitted so far and the time of the last one. *)
Let P (s : locals) : Prop :=
  low_submissions (trace s) = l /\ last_long_transcription_time s = t.

Lemma first_loop_keeps_periodic (cur : bool)
    (items : list (string * task_info)) :
  preserves P (first_loop a classifier inp cur items).
Proof.
  induction items as [|[tid info] rest IH]; simpl;
    unfold process_task, process_active, process_passive, end_conversation,
      contains_wake_word;
    preserve; try assumption;
    match goal with
    | H : P _ |- P (add_event _ _) =>
        destruct H as [H1 H2]; split;
          [apply low_submissions_add; [reflexivity | exact H1] | exact H2]
    end.
Qed.

Lemma second_loop_keeps_periodic (items : list (string * task_info)) :
  preserves P (second_loop a inp items).
Proof.
  induction items as [|[tid info] rest IH]; simpl; unfold process_long;
    preserve; try assumption.
  match goal with
  | H : P _ |- P (add_event _ _) =>
      destruct H as [H1 H2]; split;
        [apply low_submissions_add; [reflexivity | exact H1] | exact H2]
  end.
Qed.

End PassKeeps.

Lemma periodic_keeps_listening (a : args) (inp : tick_input) (b : bool) :
  preserves (fun s => is_active_listening s = b) (periodic a inp).
Proof. unfold periodic. preserve; assumption. Qed.

Lemma second_loop_keeps_listening (a : args) (inp : tick_input)
    (items : list (string * task_info)) (b : bool) :
  preserves (fun s => is_active_listening s = b) (second_loop a inp items).
Proof.
  induction items as [|[tid info] rest IH]; simpl; unfold process_long;
    preserve; assumption.
Qed.

Lemma periodic_while_active (a : args) (inp : tick_input) (s : locals) :
  is_active_listening s = true ->
  periodic a inp s
  = Returned (tt,
              if in_current_time inp - last_long_transcription_time s
                 >=? LONG_BUFFER_DURATION
              then set_last_long_transcription_time (in_current_time inp) s
              else s).
Proof.
  intros Hact. unfold periodic, bind, get. simpl.
  destruct (in_current_time inp - last_long_transcription_time s
            >=? LONG_BUFFER_DURATION); [|reflexivity].
  rewrite Hact. destruct (context_buffer s); reflexivity.
Qed.

(** X10: a pass that ends in active listening submits no long transcription;
    when the minute since the last one has passed the timer restarts all the
    same, so that snapshot of the context is skipped, not postponed. *)
Theorem no_periodic_transcription_while_active
    (a : args) (classifier : GooseWakeClassifier) (inp : tick_input)
    (s s' : locals)
    (Haudio : in_blocks inp <> [])
    (Hrun : tick a classifier inp s = Returned (tt, s'))
    (Hact : is_active_listening s' = true) :
  low_submissions (trace s') = low_submissions (trace s) /\
  last_long_transcription_time s'
  = if in_current_time inp - last_long_transcription_time s
       >=? LONG_BUFFER_DURATION
    then in_current_time inp
    else last_long_transcription_time s.
Proof.
  destruct (tick_stages _ _ _ _ _ Haudio Hrun) as (cs & s1 & s2 & H1 & H2 & H3).
  assert (H0 : low_submissions (trace (registered a inp s))
               = low_submissions (trace s) /\
               last_long_transcription_time (registered a inp s)
               = last_long_transcription_time s).
  { split; [|reflexivity]. unfold registered.
    apply low_submissions_add; [reflexivity|].
    apply low_submissions_add; reflexivity. }
  pose proof (first_loop_keeps_periodic a classifier inp
                (low_submissions (trace s)) (last_long_transcription_time s)
                _ _ (registered a inp s) _ _ H0 H1) as [Hl1 Ht1].
  assert (Hact2 : is_active_listening s2 = true).
  { destruct (is_active_listening s2) eqn:E; [reflexivity|].
    rewrite (second_loop_keeps_listening _ _ _ false _ _ _ E H3) in Hact.
    discriminate. }
  assert (Hact1 : is_active_listening s1 = true).
  { destruct (is_active_listening s1) eqn:E; [reflexivity|].
    rewrite (periodic_keeps_listening a inp false
               (set_pending_tasks (dict_del_all (pending_tasks s1) cs) s1)
               tt s2 E H2) in Hact2.
    discriminate. }
  rewrite periodic_while_active in H2 by exact Hact1.
  simpl last_long_transcription_time in H2. rewrite Ht1 in H2.
  destruct (in_current_time inp - last_long_transcription_time s
            >=? LONG_BUFFER_DURATION);
    inversion H2; subst s2;
    refine (second_loop_keeps_periodic a inp _ _ _ _ _ _ _ H3);
    split; simpl; auto.
Qed.

Lemma no_periodic_transcription_while_active_witness :
  low_submissions (trace after_late_speech)
  = low_submissions (trace after_wake) /\
  last_long_transcription_time after_late_speech = 75.
Proof.
  apply (no_periodic_transcription_while_active args_10s eager_classifier
           late_speech after_wake after_late_speech);
    [discriminate | reflexivity | reflexivity].
Defined.

Lemma concat_arrays_present (audios : list Audio) :
  concat_arrays (map Some audios) = Returned (List.concat audios).
Proof.
  induction audios as [|x l IH]; simpl; [reflexivity|].
  rewrite IH. reflexivity.
Qed.

Lemma concat_arrays_missing (l : list (option Audio)) :
  In None l -> concat_arrays l = Raised.
Proof.
  induction l as [|[x|] l IH]; simpl; [tauto | | reflexivity].
  intros [H|H]; [discriminate|]. rewrite (IH H). reflexivity.
Qed.

(** X11: while the loop is passive, once a minute has passed and the context
    buffer is not empty, the periodic step does one of two things.  If every
    record of the buffer has audio, it saves that audio, concatenated in the
    order of the buffer, submits it with LOW priority, registers the task as
    a pending long transcription and restarts the timer; the context buffer
    and the listening state are untouched.  If a record of the buffer has no
    audio (the record of a long transcription that the first polling loop
    took), [np.concatenate] raises and the step fails. *)
Theorem periodic_submits_context_audio
    (a : args) (inp : tick_input) (s : locals)
    (Hpassive : is_active_listening s = false)
    (Hne : context_buffer s <> [])
    (Helapsed : LONG_BUFFER_DURATION
                <= in_current_time inp - last_long_transcription_time s) :
  (forall audios,
      map ci_audio (context_buffer s) = map Some audios ->
      exists s',
        periodic a inp s = Returned (tt, s') /\
        trace s'
        = trace s
          ++ [SaveAudio (ci_file (ti_chunk_info (long_entry a inp)))
                (List.concat audios);
              SubmitTask (ci_file (ti_chunk_info (long_entry a inp)))
                (arg_language a) Priority.LOW] /\
        dict_get (pending_tasks s') (in_long_task_id inp)
        = Some (long_entry a inp) /\
        last_long_transcription_time s' = in_current_time inp /\
        conversation_state_is (context_buffer s)
          (active_conversation_chunks s) false (silence_counter s) s') /\
  (In None (map ci_audio (context_buffer s)) -> periodic a inp s = Raised).
Proof.
  unfold periodic, bind, get. simpl.
  destruct (Z.geb_spec (in_current_time inp - last_long_transcription_time s)
                       LONG_BUFFER_DURATION) as [_|Hlt]; [|lia].
  rewrite Hpassive.
  destruct (context_buffer s) as [|c ctx] eqn:Hctx; [congruence|].
  unfold call, np_concatenate. split.
  - intros audios Haudio. rewrite Haudio.
    destruct audios as [|x xs]; [discriminate|].
    rewrite concat_arrays_present.
    change (map Some (x :: xs)) with (Some x :: map Some xs).
    cbv iota. unfold emit, modify. simpl.
    eexists. split; [reflexivity|]. simpl.
    split; [rewrite <- app_assoc; reflexivity|].
    split; [apply dict_get_set_same|].
    unfold conversation_state_is. simpl. auto.
  - intros Hmiss. rewrite (concat_arrays_missing _ Hmiss).
    destruct (map ci_audio (c :: ctx)); reflexivity.
Qed.

Lemma periodic_submits_context_audio_witness :
  (exists s',
     periodic default_args (make_input "3" loud 61 []) two_chunks_heard
     = Returned (tt, s') /\
     trace s'
     = trace two_chunks_heard
       ++ [SaveAudio "recordings/periodic_3.wav" (List.concat [loud; quiet]);
           SubmitTask "recordings/periodic_3.wav" None Priority.LOW] /\
     dict_get (pending_tasks s') "long_3"
     = Some (long_entry default_args (make_input "3" loud 61 [])) /\
     last_long_transcription_time s' = 61 /\
     conversation_state_is (context_buffer two_chunks_heard) [] false 0 s') /\
  periodic default_args (make_input "3" loud 61 [])
    (set_context_buffer [heard "1" loud "please feed the"; periodic_record]
       start)
  = Raised.
Proof.
  split.
  - apply (proj1 (periodic_submits_context_audio default_args
                    (make_input "3" loud 61 []) two_chunks_heard
                    eq_refl ltac:(discriminate)
                    ltac:(vm_compute; discriminate)) [loud; quiet]).
    reflexivity.
  - apply (proj2 (periodic_submits_context_audio default_args
                    (make_input "3" loud 61 [])
                    (set_context_buffer
                       [heard "1" loud "please feed the"; periodic_record]
                       start)
                    eq_refl ltac:(discriminate)
                    ltac:(vm_compute; discriminate))).
    simpl. auto.
Defined.

(** ** The dictionary of pending tasks *)

Lemma mem_In (k : string) (l : list string) : mem k l = true <-> In k l.
Proof.
  unfold mem. rewrite existsb_exists. split.
  - intros (x & Hx & He). apply String.eqb_eq in He. subst. exact Hx.
  - intros H. exists k. split; [exact H | apply String.eqb_refl].
Qed.

Lemma dict_set_key_inv {V : Type} (d : list (string * V)) (k k' : string)
    (v : V) :
  In k (keys (dict_set d k' v)) -> k = k' \/ In k (keys d).
Proof.
  destruct (in_dec string_dec k' (keys d)) as [Hin|Hnin].
  - rewrite dict_set_keys_present by exact Hin. auto.
  - rewrite dict_set_keys_absent by exact Hnin. intros H.
    apply in_app_or in H. destruct H as [H|[H|[]]]; auto.
Qed.

Lemma dict_set_keeps_other {V : Type} (d : list (string * V)) (k k' : string)
    (v v' : V) :
  k <> k' -> In (k, v) d -> In (k, v) (dict_set d k' v').
Proof.
  intros Hne. induction d as [|[k0 v0] d IH]; simpl; [tauto|].
  intros [H|H].
  - inversion H; subst. destruct (String.eqb_spec k k'); [congruence|].
    left. reflexivity.
  - destruct (String.eqb k0 k'); right; auto.
Qed.

Lemma dict_set_In {V : Type} (d : list (string * V)) (k : string) (v : V) :
  In (k, v) (dict_set d k v).
Proof.
  induction d as [|[k0 v0] d IH]; simpl; [auto|].
  destruct (String.eqb k0 k); [left; reflexivity | right; exact IH].
Qed.

Lemma dict_set_nodup {V : Type} (d : list (string * V)) (k : string) (v : V) :
  NoDup (keys d) -> NoDup (keys (dict_set d k v)).
Proof.
  intros H. destruct (in_dec string_dec k (keys d)) as [Hin|Hnin].
  - rewrite dict_set_keys_present by exact Hin. exact H.
  - rewrite dict_set_keys_absent by exact Hnin.
    apply NoDup_app; [exact H | repeat constructor; simpl; tauto |].
    intros x Hx [<-|[]]. exact (Hnin Hx).
Qed.

Lemma dict_del_all_key {V : Type} (d : list (string * V)) (ks : list string)
    (k : string) :
  In k (keys (dict_del_all d ks)) <-> In k (keys d) /\ ~ In k ks.
Proof.
  unfold dict_del_all, keys. rewrite !in_map_iff. split.
  - intros ([k0 v] & <- & H). apply filter_In in H. destruct H as [H Hm].
    simpl in *. split; [exists (k0, v); auto|].
    intros Hk. apply mem_In in Hk. rewrite Hk in Hm. discriminate.
  - intros [([k0 v] & <- & H) Hn]. exists (k0, v). split; [reflexivity|].
    apply filter_In. split; [exact H|]. simpl in *.
    destruct (mem k0 ks) eqn:E; [apply mem_In in E; tauto | reflexivity].
Qed.

Lemma dict_del_all_In {V : Type} (d : list (string * V)) (ks : list string)
    (k : string) (v : V) :
  In (k, v) d -> ~ In k ks -> In (k, v) (dict_del_all d ks).
Proof.
  intros H Hn. apply filter_In. split; [exact H|]. simpl.
  destruct (mem k ks) eqn:E; [apply mem_In in E; tauto | reflexivity].
Qed.

Lemma dict_del_all_nodup {V : Type} (d : list (string * V))
    (ks : list string) :
  NoDup (keys d) -> NoDup (keys (dict_del_all d ks)).
Proof.
  unfold dict_del_all, keys. induction d as [|[k v] d IH]; simpl; intros H.
  - constructor.
  - inversion H as [|? ? Hn Hd]; subst.
    destruct (negb (mem k ks)); simpl; [|auto].
    constructor; [|auto]. intros Hin. apply Hn.
    apply in_map_iff in Hin. destruct Hin as (x & Hx & Hf).
    apply filter_In in Hf. apply in_map_iff. exists x. tauto.
Qed.

Lemma nodup_keys_functional {V : Type} (d : list (string * V)) (k : string)
    (v v' : V) :
  NoDup (keys d) -> In (k, v) d -> In (k, v') d -> v = v'.
Proof.
  induction d as [|[k0 v0] d IH]; simpl; [tauto|].
  intros H. inversion H as [|? ? Hn Hd]; subst.
  intros [H1|H1] [H2|H2].
  - congruence.
  - inversion H1; subst. exfalso. apply Hn.
    apply in_map_iff. exists (k, v'). auto.
  - inversion H2; subst. exfalso. apply Hn.
    apply in_map_iff. exists (k, v). auto.
  - auto.
Qed.

(** The handlers of a transcribed chunk leave [pending_tasks] alone. *)
Lemma process_active_keeps_pending
    (a : args) (cur : bool) (stamp : string) (ci : chunk_info)
    (p : list (string * task_info)) :
  preserves (fun s => pending_tasks s = p) (process_active a cur stamp ci).
Proof. unfold process_active, end_conversation. preserve; assumption. Qed.

Lemma process_passive_keeps_pending
    (a : args) (classifier : GooseWakeClassifier) (transcript : string)
    (ci : chunk_info) (p : list (string * task_info)) :
  preserves (fun s => pending_tasks s = p)
            (process_passive a classifier transcript ci).
Proof.
  unfold process_passive, contains_wake_word. preserve; assumption.
Qed.

(** What the body of the first polling loop does to [pending_tasks]. *)
Lemma process_task_pending
    (a : args) (classifier : GooseWakeClassifier) (inp : tick_input)
    (cur : bool) (tid : string) (info : task_info) (s : locals)
    (c : list string) (s' : locals) :
  process_task a classifier inp cur (tid, info) s = Returned (c, s') ->
  pending_tasks s' = pending_tasks s \/
  ready inp (tid, info) = true /\
  exists info', ti_processed info' = true /\
                pending_tasks s' = dict_set (pending_tasks s) tid info'.
Proof.
  intros H. destruct (ready inp (tid, info)) eqn:Hr.
  - right. split; [reflexivity|].
    destruct (ready_polled _ _ _ Hr) as (Hnew & t & Hpoll).
    rewrite (process_task_polled _ _ _ _ _ _ _ _ Hnew Hpoll) in H.
    cbv zeta in H. eexists. split; [|
    destruct (is_active_listening s);
      [destruct (process_active _ _ _ _ _) as [[[] s1]|] eqn:E
      |destruct (process_passive _ _ _ _ _) as [[[] s1]|] eqn:E];
      try discriminate; inversion H; subst;
      [exact (process_active_keeps_pending _ _ _ _ _ _ _ _ eq_refl E)
      |exact (process_passive_keeps_pending _ _ _ _ _ _ _ _ eq_refl E)]].
    reflexivity.
  - left. rewrite (process_task_skip _ _ _ _ _ _ Hr) in H.
    inversion H; reflexivity.
Qed.

Lemma process_long_fires
    (a : args) (inp : tick_input) (tid : string) (info : task_info)
    (s : locals) (t : string) :
  ti_is_long info = true -> ti_processed info = false ->
  in_poll2 inp tid = Some t ->
  process_long a inp (tid, info) s
  = Returned
      (tt,
       add_event
         (WriteText
            (path_join (recordings_dir a)
               ("periodic_"
                ++ match ti_long_timestamp info with
                   | Some stamp => stamp
                   | None => "None"
                   end ++ ".txt")%string) t)
         (set_pending_tasks
            (dict_set (pending_tasks s) tid
               {| ti_chunk_info := ti_chunk_info info;
                  ti_timestamp := ti_timestamp info;
                  ti_processed := true;
                  ti_is_long := ti_is_long info;
                  ti_long_timestamp := ti_long_timestamp info |}) s)).
Proof.
  intros Hl Hp Ht. unfold process_long. rewrite Hl, Hp, Ht. reflexivity.
Qed.

Lemma process_long_cases
    (a : args) (inp : tick_input) (tid : string) (info : task_info)
    (s : locals) :
  process_long a inp (tid, info) s = Returned (tt, s) \/
  ti_is_long info = true /\ ti_processed info = false /\
  exists t, in_poll2 inp tid = Some t.
Proof.
  unfold process_long.
  destruct (ti_is_long info); [|left; reflexivity].
  destruct (ti_processed info); [left; reflexivity|].
  destruct (in_poll2 inp tid) as [t|]; [right; eauto | left; reflexivity].
Qed.

Lemma second_loop_cons
    (a : args) (inp : tick_input) (item : string * task_info)
    (rest : list (string * task_info)) (s : locals) :
  second_loop a inp (item :: rest) s
  = match process_long a inp item s with
    | Returned (_, s1) => second_loop a inp rest s1
    | Raised => Raised
    end.
Proof. reflexivity. Qed.

(** The second polling loop changes entries of [pending_tasks] and never adds
    or removes one. *)
Lemma second_loop_keeps_keys (a : args) (inp : tick_input)
    (items : list (string * task_info)) :
  forall s s',
    (forall tid info, In (tid, info) items -> In tid (keys (pending_tasks s))) ->
    second_loop a inp items s = Returned (tt, s') ->
    keys (pending_tasks s') = keys (pending_tasks s).
Proof.
  induction items as [|[tid info] rest IH]; intros s s' Hin H.
  - inversion H; reflexivity.
  - rewrite second_loop_cons in H.
    destruct (process_long_cases a inp tid info s) as [E|(Hl & Hp & t & Ht)].
    + rewrite E in H. apply IH; [|exact H].
      intros tid' info' H'. apply (Hin tid' info'). right; exact H'.
    + rewrite (process_long_fires _ _ _ _ _ _ Hl Hp Ht) in H.
      assert (Hk : keys (dict_set (pending_tasks s) tid
                          {| ti_chunk_info := ti_chunk_info info;
                             ti_timestamp := ti_timestamp info;
                             ti_processed := true;
                             ti_is_long := ti_is_long info;
                             ti_long_timestamp := ti_long_timestamp info |})
                   = keys (pending_tasks s)).
      { apply dict_set_keys_present, (Hin tid info). left; reflexivity. }
      rewrite <- Hk. refine (IH _ _ _ H).
      simpl pending_tasks. rewrite Hk.
      intros tid' info' H'. apply (Hin tid' info'). right; exact H'.
Qed.

Lemma periodic_keeps_absent (a : args) (inp : tick_input) (k : string) :
  in_long_task_id inp <> k ->
  preserves (fun s => ~ In k (keys (pending_tasks s))) (periodic a inp).
Proof.
  intros Hne. unfold periodic. preserve; try assumption.
  simpl. intros Hin. apply dict_set_key_inv in Hin.
  destruct Hin as [Hin|Hin]; [congruence | contradiction].
Qed.

(** X12: a pending task whose transcript the first polling loop retrieves is
    removed from [pending_tasks] in the same pass, so it is not polled
    again. *)
Theorem retrieved_task_leaves_pending
    (a : args) (classifier : GooseWakeClassifier) (inp : tick_input)
    (s s' : locals) (k : string) (info : task_info) (t : string)
    (Haudio : in_blocks inp <> [])
    (Hin : In (k, info) (pending_tasks s))
    (Hnew : ti_processed info = false)
    (Hpoll : in_poll1 inp k = Some t)
    (Hlong : in_long_task_id inp <> k)
    (Hrun : tick a classifier inp s = Returned (tt, s')) :
  ~ In k (keys (pending_tasks s')).
Proof.
  destruct (tick_stages _ _ _ _ _ Haudio Hrun) as (cs & s1 & s2 & H1 & H2 & H3).
  assert (Hready : exists i, In (k, i) (pending_tasks (registered a inp s)) /\
                             ready inp (k, i) = true).
  { unfold registered. simpl pending_tasks.
    destruct (string_dec k (in_task_id inp)) as [->|Hne].
    - eexists. split; [apply dict_set_In|].
      unfold ready. simpl. rewrite Hpoll. reflexivity.
    - exists info. split; [apply dict_set_keeps_other; assumption|].
      unfold ready. simpl. rewrite Hnew, Hpoll. reflexivity. }
  destruct Hready as (i & Hi & Hr).
  assert (Hcs : In k cs).
  { rewrite (first_loop_completed _ _ _ _ _ _ _ _ H1).
    apply in_map_iff. exists (k, i). split; [reflexivity|].
    apply filter_In. auto. }
  assert (Ha2 : ~ In k (keys (pending_tasks s2))).
  { refine (periodic_keeps_absent a inp k Hlong _ _ _ _ H2).
    simpl. intros Hk. apply dict_del_all_key in Hk. tauto. }
  rewrite (second_loop_keeps_keys a inp (pending_tasks s2) s2 s');
    [exact Ha2 | | exact H3].
  intros tid info' H'. apply in_map_iff. exists (tid, info'). auto.
Qed.

Lemma retrieved_task_leaves_pending_witness :
  ~ In "task_2" (keys (pending_tasks after_late_speech)).
Proof.
  apply (retrieved_task_leaves_pending args_10s eager_classifier late_speech
           after_wake after_late_speech "task_2"
           {| ti_chunk_info := {| ci_audio := Some quiet;
                                  ci_file := "audio_chunk_2.wav";
                                  ci_transcript := None |};
              ti_timestamp := 10;
              ti_processed := false;
              ti_is_long := false;
              ti_long_timestamp := None |} "").
  - discriminate.
  - left. reflexivity.
  - reflexivity.
  - reflexivity.
  - discriminate.
  - reflexivity.
Defined.

(** ** Long transcriptions in the second polling loop *)

Lemma second_loop_keeps_trace (a : args) (inp : tick_input)
    (items : list (string * task_info)) (e : event) :
  preserves (fun s => In e (trace s)) (second_loop a inp items).
Proof.
  induction items as [|[tid info] rest IH]; simpl; unfold process_long;
    preserve; try assumption.
  simpl. apply in_or_app. left. assumption.
Qed.

Lemma second_loop_keeps_processed (a : args) (inp : tick_input)
    (items : list (string * task_info)) (k : string) :
  preserves (fun s => exists info, dict_get (pending_tasks s) k = Some info /\
                                   ti_processed info = true)
            (second_loop a inp items).
Proof.
  induction items as [|[tid info] rest IH]; simpl; unfold process_long;
    preserve; try assumption.
  simpl. destruct (string_dec k tid) as [->|Hne].
  - rewrite dict_get_set_same. eexists. split; reflexivity.
  - rewrite dict_get_set_other by exact Hne. assumption.
Qed.

(** X13: when the second polling loop finds the transcript of a long
    transcription that is pending and not processed, it writes the transcript
    to the periodic text file named after the time stamp of the snapshot and
    marks the task processed; the context buffer, the conversation, the
    listening state and the silence counter stay as they are. *)
Theorem second_loop_writes_long_transcript
    (a : args) (inp : tick_input) (items : list (string * task_info))
    (s s' : locals) (k : string) (info : task_info) (stamp t : string)
    (Hin : In (k, info) items)
    (Hlong : ti_is_long info = true)
    (Hnew : ti_processed info = false)
    (Hstamp : ti_long_timestamp info = Some stamp)
    (Hpoll : in_poll2 inp k = Some t)
    (Hrun : second_loop a inp items s = Returned (tt, s')) :
  In (WriteText
        (path_join (recordings_dir a) ("periodic_" ++ stamp ++ ".txt")%string)
        t)
     (trace s') /\
  (exists info', dict_get (pending_tasks s') k = Some info' /\
                 ti_processed info' = true) /\
  conversation_state_is (context_buffer s) (active_conversation_chunks s)
    (is_active_listening s) (silence_counter s) s'.
Proof.
  split; [|split].
  - revert s Hrun. induction items as [|item rest IH]; intros s Hrun;
      [contradiction|].
    rewrite second_loop_cons in Hrun. destruct Hin as [->|Hin].
    + rewrite (process_long_fires _ _ _ _ _ _ Hlong Hnew Hpoll) in Hrun.
      rewrite Hstamp in Hrun.
      refine (second_loop_keeps_trace a inp rest _ _ _ _ _ Hrun).
      simpl. apply in_or_app. right. left. reflexivity.
    + destruct (process_long a inp item s) as [[[] s1]|]; [|discriminate].
      apply (IH Hin s1 Hrun).
  - revert s Hrun. induction items as [|item rest IH]; intros s Hrun;
      [contradiction|].
    rewrite second_loop_cons in Hrun. destruct Hin as [->|Hin].
    + rewrite (process_long_fires _ _ _ _ _ _ Hlong Hnew Hpoll) in Hrun.
      refine (second_loop_keeps_processed a inp rest k _ _ _ _ Hrun).
      simpl. rewrite dict_get_set_same. eexists. split; reflexivity.
    + destruct (process_long a inp item s) as [[[] s1]|]; [|discriminate].
      apply (IH Hin s1 Hrun).
  - apply (second_loop_keeps_conversation_state a inp items _ _ _ _ s tt s');
      [|exact Hrun].
    unfold conversation_state_is. auto.
Qed.

(** ** Processed entries of the pending tasks *)

Lemma first_loop_keeps_settled
    (a : args) (classifier : GooseWakeClassifier) (inp : tick_input)
    (cur : bool) (k : string) (items : list (string * task_info)) :
  (forall i, In (k, i) items -> ti_processed i = true) ->
  preserves (settled k) (first_loop a classifier inp cur items).
Proof.
  induction items as [|[tid info] rest IH]; intros Hall s cs s' Hs H.
  - inversion H; subst; exact Hs.
  - rewrite first_loop_cons in H.
    destruct (process_task a classifier inp cur (tid, info) s)
      as [[c s1]|] eqn:E; [|discriminate].
    destruct (first_loop a classifier inp cur rest s1) as [[cs1 s2]|] eqn:E2;
      [|discriminate].
    inversion H; subst.
    refine (IH _ s1 cs1 s' _ E2).
    + intros i Hi. apply Hall. right; exact Hi.
    + destruct (process_task_pending _ _ _ _ _ _ _ _ _ E)
        as [Hp|(Hr & info' & _ & Hp)].
      * unfold settled in *. rewrite Hp. exact Hs.
      * assert (Hne : k <> tid).
        { intros ->. apply ready_polled in Hr. destruct Hr as [Hr _].
          rewrite (Hall info (or_introl eq_refl)) in Hr. discriminate. }
        destruct Hs as (Hnd & i & Hi & Hpi). unfold settled. rewrite Hp.
        split; [apply dict_set_nodup, Hnd|].
        exists i. split; [apply dict_set_keeps_other; assumption | exact Hpi].
Qed.

Lemma second_loop_keeps_settled
    (a : args) (inp : tick_input) (k : string)
    (items : list (string * task_info)) :
  (forall i, In (k, i) items -> ti_processed i = true) ->
  preserves (settled k) (second_loop a inp items).
Proof.
  induction items as [|[tid info] rest IH]; intros Hall s u s' Hs H.
  - inversion H; subst; exact Hs.
  - rewrite second_loop_cons in H.
    assert (Hrest : forall i, In (k, i) rest -> ti_processed i = true).
    { intros i Hi. apply Hall. right; exact Hi. }
    destruct (process_long_cases a inp tid info s) as [E|(Hl & Hp & t & Ht)].
    + rewrite E in H. exact (IH Hrest s u s' Hs H).
    + rewrite (process_long_fires _ _ _ _ _ _ Hl Hp Ht) in H.
      refine (IH Hrest _ u s' _ H).
      assert (Hne : k <> tid).
      { intros ->. rewrite (Hall info (or_introl eq_refl)) in Hp.
        discriminate. }
      destruct Hs as (Hnd & i & Hi & Hpi). unfold settled. simpl.
      split; [apply dict_set_nodup, Hnd|].
      exists i. split; [apply dict_set_keeps_other; assumption | exact Hpi].
Qed.

Lemma periodic_keeps_settled (a : args) (inp : tick_input) (k : string) :
  in_long_task_id inp <> k ->
  preserves (settled k) (periodic a inp).
Proof.
  intros Hne. unfold periodic. preserve; try assumption.
  match goal with H : settled k _ |- _ => destruct H as (Hnd & i & Hi & Hpi) end.
  unfold settled. simpl.
  split; [apply dict_set_nodup, Hnd|].
  exists i. split; [apply dict_set_keeps_other; auto | exact Hpi].
Qed.

Lemma settled_all_processed (k : string) (s : locals) :
  settled k s -> forall i, In (k, i) (pending_tasks s) -> ti_processed i = true.
Proof.
  intros (Hnd & i0 & Hi0 & Hp) i Hi.
  rewrite (nodup_keys_functional _ _ _ _ Hnd Hi Hi0). exact Hp.
Qed.

Lemma tick_keeps_settled
    (a : args) (classifier : GooseWakeClassifier) (inp : tick_input)
    (k : string) :
  in_task_id inp <> k -> in_long_task_id inp <> k ->
  preserves (settled k) (tick a classifier inp).
Proof.
  intros Hid Hlong s u s' Hs H. destruct u.
  destruct (in_blocks inp) as [|b bs] eqn:Hb.
  - unfold tick in H. rewrite Hb in H. inversion H; subst; exact Hs.
  - assert (Hne : in_blocks inp <> []) by (rewrite Hb; discriminate).
    destruct (tick_stages _ _ _ _ _ Hne H) as (cs & s1 & s2 & H1 & H2 & H3).
    assert (Hs0 : settled k (registered a inp s)).
    { destruct Hs as (Hnd & i & Hi & Hpi). unfold settled, registered. simpl.
      split; [apply dict_set_nodup, Hnd|].
      exists i. split; [apply dict_set_keeps_other; auto | exact Hpi]. }
    pose proof (first_loop_keeps_settled a classifier inp _ k _
                  (settled_all_processed _ _ Hs0) _ _ _ Hs0 H1) as Hs1.
    assert (Hcs : ~ In k cs).
    { rewrite (first_loop_completed _ _ _ _ _ _ _ _ H1). intros Hk.
      apply in_map_iff in Hk. destruct Hk as ([k' i] & Hk & Hf).
      simpl in Hk. subst k'. apply filter_In in Hf. destruct Hf as [Hi Hr].
      apply ready_polled in Hr. destruct Hr as [Hr _].
      rewrite (settled_all_processed _ _ Hs0 i Hi) in Hr. discriminate. }
    assert (Hs1' : settled k (set_pending_tasks
                                (dict_del_all (pending_tasks s1) cs) s1)).
    { destruct Hs1 as (Hnd & i & Hi & Hpi). unfold settled. simpl.
      split; [apply dict_del_all_nodup, Hnd|].
      exists i. split; [apply dict_del_all_In; assumption | exact Hpi]. }
    pose proof (periodic_keeps_settled a inp k Hlong _ _ _ Hs1' H2) as Hs2.
    exact (second_loop_keeps_settled a inp k _
             (settled_all_processed _ _ Hs2) _ _ _ Hs2 H3).
Qed.

(** X14: an entry of [pending_tasks] that is marked processed at the end of a
    pass, as the long transcriptions handled by the second polling loop are,
    is never removed: it is still pending and processed after every later
    run in which no new task reuses its id. *)
Theorem processed_entry_is_never_removed
    (a : args) (classifier : GooseWakeClassifier) (k : string)
    (inps : list tick_input) (s s' : locals)
    (Hsettled : settled k s)
    (Hfresh : Forall (fun inp => in_task_id inp <> k /\
                                 in_long_task_id inp <> k) inps)
    (Hrun : run a classifier inps s = Returned (tt, s')) :
  settled k s'.
Proof.
  revert s Hsettled Hrun.
  induction Hfresh as [|inp rest [Hid Hlong] _ IH]; intros s Hsettled Hrun.
  - inversion Hrun; subst; exact Hsettled.
  - simpl in Hrun. apply bind_returns in Hrun.
    destruct Hrun as ([] & s1 & H1 & H2).
    apply (IH s1); [|exact H2].
    exact (tick_keeps_settled a classifier inp k Hid Hlong _ _ _ Hsettled H1).
Qed.

Lemma second_loop_writes_long_transcript_witness :
  exists s',
    second_loop default_args
      (with_poll2 (make_input "3" quiet 66 [])
                  [("long_2", "please feed the birds")])
      (pending_tasks before_long_poll) before_long_poll
    = Returned (tt, s') /\
    In (WriteText "recordings/periodic_2.txt" "please feed the birds")
       (trace s') /\
    (exists info', dict_get (pending_tasks s') "long_2" = Some info' /\
                   ti_processed info' = true) /\
    conversation_state_is (context_buffer before_long_poll) [] false 0 s'.
Proof.
  eexists. split; [vm_compute; reflexivity|].
  apply (second_loop_writes_long_transcript default_args
           (with_poll2 (make_input "3" quiet 66 [])
                       [("long_2", "please feed the birds")])
           (pending_tasks before_long_poll) before_long_poll _ "long_2"
           (long_entry default_args (make_input "2" loud 61 [])) "2"
           "please feed the birds").
  - left. reflexivity.
  - reflexivity.
  - reflexivity.
  - reflexivity.
  - reflexivity.
  - vm_compute. reflexivity.
Defined.

Lemma processed_entry_is_never_removed_witness :
  settled "long_2" after_fourth_pass.
Proof.
  apply (processed_entry_is_never_removed default_args eager_classifier
           "long_2" [fourth_pass] after_long_poll after_fourth_pass).
  - split.
    + repeat constructor; simpl; intuition discriminate.
    + eexists. split; [left; reflexivity | reflexivity].
  - repeat constructor; discriminate.
  - reflexivity.
Defined.

(** ** The conversation at wake-up *)

Lemma deque_append_ends {A : Type} (maxlen : Z) (d : list A) (x : A) :
  0 < maxlen -> exists pre, deque_append maxlen d x = pre ++ [x].
Proof.
  intros Hpos. unfold deque_append.
  destruct (Z.ltb_spec maxlen (Z.of_nat (List.length (d ++ [x])))) as [E|E].
  - destruct d as [|y d]; simpl in *; [lia|]. exists d. reflexivity.
  - exists d. reflexivity.
Qed.

(** X15: when a transcript wakes the loop, the conversation starts as the
    context buffer with the chunk that holds the wake word appended to it
    (the oldest record dropped when the buffer was full), and the silence
    counter is 0; if the buffer has room for at least one record, the chunk
    with the wake word is the last record of the conversation. *)
Theorem wake_seeds_conversation_with_context
    (a : args) (classifier : GooseWakeClassifier) (transcript : string)
    (ci : chunk_info) (s s' : locals)
    (Hpassive : is_active_listening s = false)
    (Hrun : process_passive a classifier transcript ci s = Returned (tt, s'))
    (Hwoke : is_active_listening s' = true) :
  active_conversation_chunks s'
  = deque_append (context_chunks (context_seconds a)) (context_buffer s) ci /\
  context_buffer s' = active_conversation_chunks s' /\
  silence_counter s' = 0 /\
  (0 < context_chunks (context_seconds a) ->
   exists pre, active_conversation_chunks s' = pre ++ [ci]).
Proof.
  unfold process_passive, contains_wake_word in Hrun.
  unfold bind at 1 in Hrun. unfold modify at 1 in Hrun.
  assert (Hgoal :
    active_conversation_chunks s'
    = deque_append (context_chunks (context_seconds a)) (context_buffer s) ci /\
    context_buffer s' = active_conversation_chunks s' /\
    silence_counter s' = 0).
  { destruct (truthy (Some transcript)).
    - destruct (str_in "goose" (lower transcript)).
      + unfold bind, emit, modify, call, ret in Hrun. simpl in Hrun.
        destruct (classify classifier transcript) as [[|]|]; try discriminate.
        * destruct (classify_with_details classifier transcript);
            [|discriminate].
          inversion Hrun; subst. simpl. auto.
        * inversion Hrun; subst. simpl in Hwoke. congruence.
      + unfold bind, ret in Hrun. inversion Hrun; subst. simpl in Hwoke.
        congruence.
    - unfold ret in Hrun. inversion Hrun; subst. simpl in Hwoke. congruence. }
  destruct Hgoal as (H1 & H2 & H3). repeat split; auto.
  intros Hpos. rewrite H1. apply deque_append_ends, Hpos.
Qed.

Lemma wake_seeds_conversation_with_context_witness :
  exists s',
    process_passive default_args eager_classifier "hey goose"
      (heard "3" loud "hey goose") two_chunks_heard
    = Returned (tt, s') /\
    active_conversation_chunks s'
    = deque_append (context_chunks (context_seconds default_args))
        (context_buffer two_chunks_heard) (heard "3" loud "hey goose") /\
    context_buffer s' = active_conversation_chunks s' /\
    silence_counter s' = 0 /\
    (0 < context_chunks (context_seconds default_args) ->
     exists pre,
       active_conversation_chunks s' = pre ++ [heard "3" loud "hey goose"]).
Proof.
  eexists. split; [vm_compute; reflexivity|].
  apply (wake_seeds_conversation_with_context default_args eager_classifier
           "hey goose" (heard "3" loud "hey goose") two_chunks_heard);
    reflexivity.
Defined.

(** ** The length of the context *)

Lemma context_chunks_sign (context_seconds : Z) :
  (context_chunks context_seconds < 0 <-> context_seconds <= -5) /\
  (context_chunks context_seconds = 0 <-> -5 < context_seconds < 5).
Proof.
  unfold context_chunks, BUFFER_DURATION.
  pose proof (Z.quot_rem' context_seconds 5) as Hqr.
  destruct (Z_le_gt_dec 0 context_seconds) as [Hpos|Hneg].
  - pose proof (Z.rem_bound_pos context_seconds 5 Hpos ltac:(lia)). lia.
  - pose proof (Z.rem_bound_pos_neg context_seconds 5 ltac:(lia) ltac:(lia)).
    lia.
Qed.

(** X16: for [--context-seconds] of magnitude at most 2^53, where the
    division [context_seconds / BUFFER_DURATION] is exact in floating point
    and its integer part is far below the largest length of a deque, [main]
    fails before the loop starts, on the construction of the context buffer,
    exactly when the argument is -5 or less; otherwise the loop starts
    passive with nothing pending, and the buffer has room for no record at
    all exactly when the argument is between -4 and 4. *)
Theorem main_init_raises_iff (a : args) (now : Z)
    (Hrange : - 2 ^ 53 <= context_seconds a <= 2 ^ 53) :
  (main_init a now = Raised <-> context_seconds a <= -5) /\
  (-5 < context_seconds a ->
   main_init a now
   = Returned {| context_buffer := [];
                 conversation_counter := 0;
                 last_long_transcription_time := now;
                 is_active_listening := false;
                 active_conversation_chunks := [];
                 silence_counter := 0;
                 pending_tasks := [];
                 trace := [] |}) /\
  (context_chunks (context_seconds a) = 0 <-> -5 < context_seconds a < 5) /\
  - 2 ^ 53 <= context_chunks (context_seconds a) * BUFFER_DURATION <= 2 ^ 53.
Proof.
  destruct (context_chunks_sign (context_seconds a)) as [Hneg Hzero].
  assert (Hbound : - 2 ^ 53
                   <= context_chunks (context_seconds a) * BUFFER_DURATION
                   <= 2 ^ 53).
  { unfold context_chunks, BUFFER_DURATION.
    pose proof (Z.quot_rem' (context_seconds a) 5) as Hqr.
    destruct (Z_le_gt_dec 0 (context_seconds a)) as [Hpos|Hn].
    - pose proof (Z.rem_bound_pos (context_seconds a) 5 Hpos ltac:(lia)). lia.
    - pose proof (Z.rem_bound_pos_neg (context_seconds a) 5
                    ltac:(lia) ltac:(lia)).
      lia. }
  unfold main_init, new_context_buffer.
  destruct (Z.ltb_spec (context_chunks (context_seconds a)) 0) as [E|E].
  - split; [split; [intros _; apply Hneg, E | reflexivity]|].
    split; [|split; [exact Hzero | exact Hbound]].
    intros H. apply Hneg in E. lia.
  - split; [split; [discriminate | intros H; apply Hneg in H; lia]|].
    split; [reflexivity | split; [exact Hzero | exact Hbound]].
Qed.

Lemma main_init_raises_iff_witness :
  main_init {| arg_language := None; recordings_dir := "recordings";
               context_seconds := -4; silence_seconds := 3 |} 0
  = Returned start.
Proof.
  apply (proj1 (proj2 (main_init_raises_iff
                         {| arg_language := None;
                            recordings_dir := "recordings";
                            context_seconds := -4; silence_seconds := 3 |} 0
                         ltac:(simpl; lia)))).
  simpl. lia.
Defined.

Lemma periodic_without_context (a : args) (inp : tick_input) (s : locals) :
  context_buffer s = [] ->
  periodic a inp s
  = Returned (tt,
              if in_current_time inp - last_long_transcription_time s
                 >=? LONG_BUFFER_DURATION
              then set_last_long_transcription_time (in_current_time inp) s
              else s).
Proof.
  intros Hctx. unfold periodic, bind, get. simpl.
  destruct (in_current_time inp - last_long_transcription_time s
            >=? LONG_BUFFER_DURATION); [|reflexivity].
  rewrite Hctx. reflexivity.
Qed.

Section NoContext.

Variable a : args.
Variable classifier : GooseWakeClassifier.
Hypothesis no_room : context_chunks (context_seconds a) = 0.

Let P (s : locals) : Prop :=
  context_buffer s = [] /\ low_submissions (trace s) = [].

Lemma first_loop_without_context (inp : tick_input) (cur : bool)
    (items : list (string * task_info)) :
  preserves P (first_loop a classifier inp cur items).
Proof.
  induction items as [|[tid info] rest IH]; simpl;
    unfold process_task, process_active, process_passive, end_conversation,
      contains_wake_word;
    preserve; try assumption;
    match goal with
    | H : P _ |- P (add_event _ _) =>
        destruct H as [H1 H2]; split;
          [exact H1 | apply low_submissions_add; [reflexivity | exact H2]]
    | H : P _ |- P (set_context_buffer _ _) =>
        destruct H as [H1 H2]; split; [|exact H2];
          simpl; rewrite H1, no_room; reflexivity
    end.
Qed.

Lemma second_loop_without_context (inp : tick_input)
    (items : list (string * task_info)) :
  preserves P (second_loop a inp items).
Proof.
  induction items as [|[tid info] rest IH]; simpl; unfold process_long;
    preserve; try assumption.
  match goal with
  | H : P _ |- P (add_event _ _) =>
      destruct H as [H1 H2]; split;
        [exact H1 | apply low_submissions_add; [reflexivity | exact H2]]
  end.
Qed.

Lemma tick_without_context (inp : tick_input) :
  preserves P (tick a classifier inp).
Proof.
  intros s u s' Hs H. destruct u.
  destruct (in_blocks inp) as [|b bs] eqn:Hb.
  - unfold tick in H. rewrite Hb in H. inversion H; subst; exact Hs.
  - assert (Hne : in_blocks inp <> []) by (rewrite Hb; discriminate).
    destruct (tick_stages _ _ _ _ _ Hne H) as (cs & s1 & s2 & H1 & H2 & H3).
    assert (Hs0 : P (registered a inp s)).
    { destruct Hs as [Hc Hl]. split; [exact Hc|]. unfold registered.
      apply low_submissions_add; [reflexivity|].
      apply low_submissions_add; [reflexivity | exact Hl]. }
    pose proof (first_loop_without_context inp _ _ _ _ _ Hs0 H1) as [Hc1 Hl1].
    rewrite periodic_without_context in H2 by exact Hc1.
    refine (second_loop_without_context inp _ s2 tt s' _ H3).
    destruct (in_current_time inp
              - last_long_transcription_time
                  (set_pending_tasks (dict_del_all (pending_tasks s1) cs) s1)
              >=? LONG_BUFFER_DURATION);
      inversion H2; subst s2; split; assumption.
Qed.

Lemma run_without_context (inps : list tick_input) :
  preserves P (run a classifier inps).
Proof.
  induction inps as [|inp rest IH]; simpl; preserve; try assumption.
  apply tick_without_context.
Qed.

End NoContext.

(** X17: with [--context-seconds] between -4 and 4 the context buffer holds
    nothing after any run of the loop, and no long transcription is ever
    submitted, since the periodic step needs a context buffer that is not
    empty. *)
Theorem short_context_disables_periodic_transcription
    (a : args) (classifier : GooseWakeClassifier) (now : Z) (s0 : locals)
    (inps : list tick_input) (s : locals)
    (Hshort : -5 < context_seconds a < 5)
    (Hinit : main_init a now = Returned s0)
    (Hrun : run a classifier inps s0 = Returned (tt, s)) :
  context_buffer s = [] /\ low_submissions (trace s) = [].
Proof.
  assert (Hzero : context_chunks (context_seconds a) = 0)
    by (apply context_chunks_sign; exact Hshort).
  refine (run_without_context a classifier Hzero inps s0 tt s _ Hrun).
  unfold main_init in Hinit.
  destruct (new_context_buffer chunk_info (context_chunks (context_seconds a)))
    eqn:E; [|discriminate].
  unfold new_context_buffer in E. rewrite Hzero in E. simpl in E.
  inversion E; subst. inversion Hinit; subst. split; reflexivity.
Qed.

Lemma short_context_disables_periodic_transcription_witness :
  context_buffer after_short_run = [] /\
  low_submissions (trace after_short_run) = [].
Proof.
  apply (short_context_disables_periodic_transcription short_args
           eager_classifier 0 start
           [make_input "1" loud 5 [];
            make_input "2" loud 70 [("task_1", "good morning")]]
           after_short_run).
  - simpl. lia.
  - reflexivity.
  - reflexivity.
Defined.

Lemma get_result_none_iff_witness :
  snd (get_result busy_service "task_1") = busy_service /\
  snd (get_result busy_service "task_9") = busy_service.
Proof.
  split.
  - apply (proj2 (get_result_none_iff busy_service "task_1")). reflexivity.
  - apply (proj2 (get_result_none_iff busy_service "task_9")). reflexivity.
Defined.

Lemma transcribe_task_empty_iff_witness :
  _transcribe_task padded_model "broken.wav" (Some "en") = "".
Proof.
  apply (proj1 (transcribe_task_empty_iff padded_model "broken.wav"
                  (Some "en"))).
  left. reflexivity.
Defined.

(** ** The temporary file of a pass without transcript *)

Lemma first_loop_nothing_ready
    (a : args) (classifier : GooseWakeClassifier) (inp : tick_input)
    (cur : bool) (items : list (string * task_info)) (s : locals) :
  (forall item, In item items -> ready inp item = false) ->
  first_loop a classifier inp cur items s = Returned ([], s).
Proof.
  induction items as [|item rest IH]; intros Hall; [reflexivity|].
  rewrite first_loop_cons.
  rewrite (process_task_skip _ _ _ _ _ _ (Hall item (or_introl eq_refl))).
  rewrite IH; [reflexivity|]. intros it Hit. apply Hall. right; exact Hit.
Qed.

Lemma temp_file_nothing_ready (inp : tick_input)
    (items : list (string * task_info)) (file : string) :
  (forall item, In item items -> ready inp item = false) ->
  fold_left
    (fun file item =>
       if ready inp item then ci_file (ti_chunk_info (snd item)) else file)
    items file
  = file.
Proof.
  revert file. induction items as [|item rest IH]; intros file Hall;
    [reflexivity|].
  simpl. rewrite (Hall item (or_introl eq_refl)).
  apply IH. intros it Hit. apply Hall. right; exact Hit.
Qed.

Lemma periodic_keeps_conversation_state
    (a : args) (inp : tick_input) (c x : list chunk_info) (b : bool) (n : Z) :
  preserves (conversation_state_is c x b n) (periodic a inp).
Proof. unfold periodic. preserve; assumption. Qed.

(** X18: in a pass in which the first polling loop retrieves no transcript,
    the audio file recorded and submitted for transcription in that pass is
    the one given to [os.remove] at the end of the pass (its name being new
    to the context buffer and to the conversation), although its
    transcription is still pending. *)
Theorem pass_without_transcript_removes_submitted_file
    (a : args) (classifier : GooseWakeClassifier) (inp : tick_input)
    (s s' : locals)
    (Haudio : in_blocks inp <> [])
    (Hnone : forall item,
               In item (pending_tasks (registered a inp s)) ->
               ready inp item = false)
    (Hctx : mem (in_temp_file inp) (map ci_file (context_buffer s)) = false)
    (Hconv : mem (in_temp_file inp)
                 (map ci_file (active_conversation_chunks s)) = false)
    (Hrun : tick a classifier inp s = Returned (tt, s')) :
  pass_cleanup a inp s s' = Some (in_temp_file inp) /\
  In (SubmitTask (in_temp_file inp) (arg_language a) Priority.HIGH)
     (trace s') /\
  in_poll1 inp (in_task_id inp) = None.
Proof.
  destruct (tick_stages _ _ _ _ _ Haudio Hrun) as (cs & s1 & s2 & H1 & H2 & H3).
  rewrite (first_loop_nothing_ready _ _ _ _ _ _ Hnone) in H1.
  inversion H1; subst cs s1. clear H1.
  assert (Hdel : dict_del_all (pending_tasks (registered a inp s)) []
                 = pending_tasks (registered a inp s)).
  { unfold dict_del_all. apply forallb_filter_id. apply forallb_forall.
    intros x _. reflexivity. }
  rewrite Hdel in H2.
  assert (Hst : conversation_state_is (context_buffer s)
                  (active_conversation_chunks s) (is_active_listening s)
                  (silence_counter s) s').
  { refine (second_loop_keeps_conversation_state a inp _ _ _ _ _ s2 tt s' _ H3).
    refine (periodic_keeps_conversation_state a inp _ _ _ _ _ tt s2 _ H2).
    unfold conversation_state_is. simpl. auto. }
  destruct Hst as (Hc & Hx & _ & _).
  split; [|split].
  - unfold pass_cleanup, temp_file_after_first_loop.
    rewrite (temp_file_nothing_ready _ _ _ Hnone), Hc, Hx, Hctx, Hconv.
    reflexivity.
  - refine (second_loop_keeps_trace a inp _ _ s2 tt s' _ H3).
    assert (Hp : preserves
                   (fun s0 => In (SubmitTask (in_temp_file inp)
                                    (arg_language a) Priority.HIGH) (trace s0))
                   (periodic a inp)).
    { unfold periodic. preserve; try assumption;
        simpl; apply in_or_app; left; assumption. }
    refine (Hp _ tt s2 _ H2). unfold registered. simpl.
    apply in_or_app. right. left. reflexivity.
  - pose proof (fun v => Hnone (in_task_id inp, v)) as Hr.
    unfold registered in Hr. simpl pending_tasks in Hr.
    specialize (Hr _ (dict_set_In _ _ _)).
    unfold ready in Hr. simpl in Hr.
    destruct (in_poll1 inp (in_task_id inp)); [discriminate | reflexivity].
Qed.

Lemma pass_without_transcript_removes_submitted_file_witness :
  pass_cleanup default_args first_pass start after_first_pass
  = Some "audio_chunk_1.wav" /\
  In (SubmitTask "audio_chunk_1.wav" None Priority.HIGH)
     (trace after_first_pass) /\
  in_poll1 first_pass "task_1" = None.
Proof.
  apply (pass_without_transcript_removes_submitted_file default_args
           eager_classifier first_pass start after_first_pass).
  - discriminate.
  - intros item [<-|[]]. reflexivity.
  - reflexivity.
  - reflexivity.
  - reflexivity.
Defined.

(** ** The temporary files of passive listening *)

Lemma first_loop_passive_context
    (a : args) (classifier : GooseWakeClassifier) (inp : tick_input)
    (cur : bool) (items : list (string * task_info)) :
  (forall item transcript,
      In item items -> in_poll1 inp (fst item) = Some transcript ->
      str_in "goose" (lower transcript) = false) ->
  forall s cs s',
    is_active_listening s = false ->
    first_loop a classifier inp cur items s = Returned (cs, s') ->
    context_buffer s'
    = fold_left (deque_append (context_chunks (context_seconds a)))
                (map (filled inp) (filter (ready inp) items))
                (context_buffer s).
Proof.
  induction items as [|[tid info] rest IH]; intros Hno s cs s' Hpas H.
  - inversion H; reflexivity.
  - rewrite first_loop_cons in H. simpl filter.
    assert (Hrest : forall item transcript,
               In item rest -> in_poll1 inp (fst item) = Some transcript ->
               str_in "goose" (lower transcript) = false).
    { intros item t Hi. apply Hno. right; exact Hi. }
    destruct (ready inp (tid, info)) eqn:Hr.
    + destruct (ready_polled _ _ _ Hr) as (Hnew & t & Hpoll).
      rewrite (process_task_polled _ _ _ _ _ _ _ _ Hnew Hpoll) in H.
      cbv zeta in H. rewrite Hpas in H.
      rewrite (process_passive_no_goose _ _ _ _ _
                 (Hno (tid, info) t (or_introl eq_refl) Hpoll)) in H.
      destruct (first_loop a classifier inp cur rest _) as [[cs1 s2]|] eqn:E;
        [|discriminate].
      inversion H; subst.
      pose proof (fun Hp => IH Hrest _ _ _ Hp E) as IH'.
      rewrite (IH' Hpas). simpl.
      unfold filled at 3. simpl. rewrite Hpoll. reflexivity.
    + rewrite (process_task_skip _ _ _ _ _ _ Hr) in H.
      destruct (first_loop a classifier inp cur rest s) as [[cs1 s2]|] eqn:E;
        [|discriminate].
      inversion H; subst. exact (IH Hrest _ _ _ Hpas E).
Qed.

Lemma temp_file_last_ready (inp : tick_input)
    (items : list (string * task_info)) :
  filter (ready inp) items <> [] ->
  exists pre x,
    filter (ready inp) items = pre ++ [x] /\
    temp_file_after_first_loop inp items = ci_file (ti_chunk_info (snd x)).
Proof.
  unfold temp_file_after_first_loop.
  induction items as [|y l IH] using rev_ind; [simpl; congruence|].
  rewrite filter_app, fold_left_app. simpl.
  destruct (ready inp y) eqn:Hr.
  - intros _. exists (filter (ready inp) l), y. auto.
  - rewrite app_nil_r. intros Hne. destruct (IH Hne) as (pre & x & Hf & Ht).
    exists pre, x. auto.
Qed.

(** X19: while the loop stays passive and the context buffer has room for a
    record, a pass that retrieves a transcript gives no file to [os.remove]:
    the file it considers is the one of the last chunk retrieved, which has
    just entered the context buffer.  Files of chunks that leave the buffer
    are thus not removed by the passes. *)
Theorem passive_pass_with_transcript_removes_no_file
    (a : args) (classifier : GooseWakeClassifier) (inp : tick_input)
    (s s' : locals)
    (Haudio : in_blocks inp <> [])
    (Hpassive : is_active_listening s = false)
    (Hroom : 0 < context_chunks (context_seconds a))
    (Hnogoose : forall item transcript,
                  In item (pending_tasks (registered a inp s)) ->
                  in_poll1 inp (fst item) = Some transcript ->
                  str_in "goose" (lower transcript) = false)
    (Hsome : filter (ready inp) (pending_tasks (registered a inp s)) <> [])
    (Hrun : tick a classifier inp s = Returned (tt, s')) :
  pass_cleanup a inp s s' = None.
Proof.
  destruct (tick_stages _ _ _ _ _ Haudio Hrun) as (cs & s1 & s2 & H1 & H2 & H3).
  pose proof (fun Hp => first_loop_passive_context a classifier inp _ _
                          Hnogoose _ _ _ Hp H1) as Hctx1.
  specialize (Hctx1 Hpassive).
  assert (Hst : context_buffer s' = context_buffer s1).
  { assert (Hc : conversation_state_is (context_buffer s1)
                   (active_conversation_chunks s1) (is_active_listening s1)
                   (silence_counter s1) s').
    { refine (second_loop_keeps_conversation_state a inp _ _ _ _ _ s2 tt s'
                _ H3).
      refine (periodic_keeps_conversation_state a inp _ _ _ _ _ tt s2 _ H2).
      unfold conversation_state_is. simpl. auto. }
    destruct Hc as [Hc _]. exact Hc. }
  destruct (temp_file_last_ready inp _ Hsome) as (pre & x & Hf & Ht).
  unfold pass_cleanup. rewrite Ht, Hst, Hctx1, Hf.
  rewrite map_app, fold_left_app. simpl.
  match goal with
  | |- context [deque_append ?n ?d ?y] =>
      destruct (deque_append_ends n d y Hroom) as [d' Hd]; rewrite Hd;
      assert (Hm : mem (ci_file (ti_chunk_info (snd x)))
                       (map ci_file (d' ++ [y])) = true)
        by (apply mem_In; rewrite map_app; apply in_or_app; right; left;
            reflexivity)
  end.
  rewrite Hm. reflexivity.
Qed.

Lemma passive_pass_with_transcript_removes_no_file_witness :
  pass_cleanup default_args second_pass after_first_pass after_second_pass
  = None.
Proof.
  apply (passive_pass_with_transcript_removes_no_file default_args
           eager_classifier second_pass after_first_pass after_second_pass).
  - discriminate.
  - reflexivity.
  - reflexivity.
  - intros item transcript [<-|[<-|[]]] H; vm_compute in H;
      try discriminate. inversion H. reflexivity.
  - vm_compute. discriminate.
  - reflexivity.
Defined.

(** ** The order of appending, in every pass *)













